(** * Data-Governance front end (src/index.tsx): model and verification

    The page script is embedded as a state-and-exception monad over a small
    model of the DOM.  The three libraries the script delegates to (the
    model service, the markdown renderer and the tabular parser) and the
    JSON serialiser of the platform are parameters of the development.

    Conventions of the model:
    - an element is a record of the properties the script touches; the
      document is the list of the elements of the loaded page in document
      order and a node is an index into it;
    - [innerHTML] of an element is the markup last assigned to it, as the
      string the script built; the elements a browser creates when it
      parses that markup are not part of the model, so a statement about
      [innerHTML] speaks of what the script assigned, not of what the
      browser displays;
    - an element reference held by the script is [Some node] or [None]
      for [null]; using [null] throws, as in the browser;
    - every write and every call that leaves the script is also appended
      to an effect log, which is how the statements speak about order
      ("as the last step") and about calls that do not happen;
    - a listener, and a call of the asynchronous [streamResponse], is
      followed on its own, in program order, up to the point where the
      call has settled (in the browser the listener itself returns at the
      first [await] and the rest of the call runs later); the answer of
      the service and of the parser is what the corresponding parameter
      returns. *)

From Stdlib Require Import String Ascii NArith.
From stdpp Require Import base option list gmap.

Local Open Scope N_scope.

(** ** JavaScript strings

    A JavaScript string is a sequence of 16-bit code units.  They are kept
    as [list N] so that [String.prototype.trim] can be written over the
    whole ECMAScript white-space set, most of which lies outside Latin-1. *)

Abbreviation jsstring := (list N) (only parsing).

Definition js (s : string) : jsstring :=
  (fun a => N_of_ascii a) <$> list_ascii_of_string s.

(** The double-quote character, used inside the script's literals. *)
Definition dq : jsstring := [34].

(** ECMAScript WhiteSpace and LineTerminator code points (all in the BMP):
    the characters removed by [trim]. *)
Definition isWhiteSpace (c : N) : bool :=
  (c =? 0x0009) || (c =? 0x000A) || (c =? 0x000B) || (c =? 0x000C) ||
  (c =? 0x000D) || (c =? 0x0020) || (c =? 0x00A0) || (c =? 0x1680) ||
  ((0x2000 <=? c) && (c <=? 0x200A)) ||
  (c =? 0x2028) || (c =? 0x2029) || (c =? 0x202F) || (c =? 0x205F) ||
  (c =? 0x3000) || (c =? 0xFEFF).

Fixpoint trimStart (s : jsstring) : jsstring :=
  match s with
  | c :: s' => if isWhiteSpace c then trimStart s' else s
  | [] => []
  end.

Definition trimEnd (s : jsstring) : jsstring :=
  reverse (trimStart (reverse s)).

Definition trim (s : jsstring) : jsstring := trimEnd (trimStart s).

(** [!s] for a string [s]: only the empty string is falsy. *)
Definition falsy (s : jsstring) : bool :=
  match s with [] => true | _ :: _ => false end.

(** [a.join(sep)] on an array of strings. *)
Fixpoint join (sep : jsstring) (l : list jsstring) : jsstring :=
  match l with
  | [] => []
  | [x] => x
  | x :: rest => x ++ sep ++ join sep rest
  end.

(** [t] occurs in [s] as a contiguous substring. *)
Definition substring_of (t s : jsstring) : Prop :=
  exists pre post, s = pre ++ t ++ post.

(** Every code unit of the string is white space (the empty string
    included). *)
Definition whitespace_only (s : jsstring) : Prop :=
  Forall (fun c => isWhiteSpace c = true) s.

(** ** Values crossing the library boundaries *)

(** Thrown values are [Error] objects; only [message] is ever read. *)
Record Error := mkError { message : jsstring }.

(** One element of the stream returned by the model service.  The script
    reads [chunk.text], which the client library types as
    [string | undefined]: a chunk that carries no text part (only usage
    or finish metadata, say) has [text = None]. *)
Record Chunk := mkChunk { text : option jsstring }.

(** [ToString] on such a value, as applied by [+=] to its right operand
    when the left one is a string. *)
Definition ToString (v : option jsstring) : jsstring :=
  match v with
  | Some s => s
  | None => js "undefined"
  end.

(** How an asynchronous iteration ends. *)
Inductive StreamEnd :=
| Completed
| Failed (e : Error).

(** What [ai.models.generateContentStream] does with one request: the
    returned promise rejects, or it resolves to a finite stream. *)
Inductive Response :=
| Rejected (e : Error)
| Stream (chunks : list Chunk) (fin : StreamEnd).

(** A [File] picked by the user: its name and, when the browser can still
    read it at the time the parser asks, its text. *)
Record File := mkFile { name : jsstring; contents : option jsstring }.

Record ParseConfig := mkParseConfig { header : bool; preview : nat }.

(** A parsed row: header name to cell text, in column order. *)
Abbreviation Row := (list (jsstring * jsstring)) (only parsing).

(** [results] as handed to the [complete] callback: the rows, the problems
    met while parsing ([results.errors], which the script never reads), and
    [meta.fields], optional in the library's typing, hence the [?.] in the
    script. *)
Record ParseResults := mkParseResults {
  data : list Row;
  errors : list Error;
  meta_fields : option (list jsstring)
}.

(** Papa.parse calls one of its two callbacks: [complete] with the
    results, whether or not the text was well formed (malformed input is
    reported inside [results.errors]), or [error] when the file could not
    be read at all. *)
Inductive ParseOutcome :=
| Complete (results : ParseResults)
| ParseFailed (e : Error).

(** JavaScript values passed to [JSON.stringify]. *)
#[warnings="-register-all"]
Inductive JSValue :=
| JUndefined
| JString (s : jsstring)
| JArray (items : list JSValue)
| JObject (props : list (jsstring * JSValue)).

(** The external collaborators. *)
Class Externals := {
  generateContentStream : jsstring -> jsstring -> Response;
  marked_parse : jsstring -> jsstring;
  Papa_parse : File -> ParseConfig -> ParseOutcome;
  Papa_unparse : list Row -> jsstring;
  JSON_stringify : JSValue -> nat -> jsstring
}.

(** ** The DOM *)

Record Element := mkElement {
  elemId : jsstring;
  classList : list jsstring;
  attributes : gmap jsstring jsstring;
  innerHTML : jsstring;
  value : jsstring;
  disabled : bool
}.

(** The property writes the script performs. *)
Inductive Mutation :=
| SetInnerHTML (html : jsstring)
| SetDisabled (b : bool)
| SetValue (v : jsstring)
| ClassAdd (c : jsstring)
| ClassRemove (c : jsstring)
| SetAttribute (k v : jsstring).

Definition contains (c : jsstring) (e : Element) : bool :=
  bool_decide (c ∈ classList e).

(** The write applied to the record.  [SetInnerHTML] stores the markup as
    assigned, unparsed. *)
Definition mutate (m : Mutation) (e : Element) : Element :=
  match m with
  | SetInnerHTML html =>
      mkElement (elemId e) (classList e) (attributes e) html (value e) (disabled e)
  | SetDisabled b =>
      mkElement (elemId e) (classList e) (attributes e) (innerHTML e) (value e) b
  | SetValue v =>
      mkElement (elemId e) (classList e) (attributes e) (innerHTML e) v (disabled e)
  | ClassAdd c =>
      mkElement (elemId e)
        (if contains c e then classList e else classList e ++ [c])
        (attributes e) (innerHTML e) (value e) (disabled e)
  | ClassRemove c =>
      mkElement (elemId e)
        (filter (fun c' => c' ≠ c) (classList e))
        (attributes e) (innerHTML e) (value e) (disabled e)
  | SetAttribute k v =>
      mkElement (elemId e) (classList e) (<[k := v]> (attributes e))
        (innerHTML e) (value e) (disabled e)
  end.

(** An element reference as held by the script: a node of the document, or
    [null] when [getElementById] found nothing. *)
Abbreviation handle := (option nat) (only parsing).

(** The constants of lines 21-35. *)
Record Handles := mkHandles {
  tabCompliance : handle;
  tabClassifier : handle;
  contentCompliance : handle;
  contentClassifier : handle;
  schemaInputCompliance : handle;
  queryInput : handle;
  checkComplianceBtn : handle;
  complianceResult : handle;
  fileUpload : handle;
  schemaInputClassifier : handle;
  sampleInput : handle;
  classifyDataBtn : handle;
  classifierResult : handle
}.

(** The two modes of the page, one tab button and one panel each. *)
Inductive Tab :=
| Compliance
| Classifier.

(** The five listeners the script registers (one per tab for the tab
    buttons); each closes over [Handles]. *)
Inductive ListenerCode :=
| OnTab (t : Tab)
| OnCheckCompliance
| OnFileChange
| OnClassifyData.

Record Listener := mkListener {
  target : nat;
  eventType : jsstring;
  code : ListenerCode;
  env : Handles
}.

(** What the outside can observe of a run, in program order. *)
Inductive Effect :=
| DomWrite (node : nat) (m : Mutation)
| BodyWrite (html : jsstring)
| ModelRequest (model contents : jsstring)
| ParseRequest (file : File) (cfg : ParseConfig)
| ConsoleError (e : Error)
| Uncaught (e : Error).

(** The page: the elements of the loaded document in document order,
    the markup assigned to [document.body.innerHTML] if the script
    replaced the body, the registered listeners and the effect log. *)
Record World := mkWorld {
  document : list Element;
  bodyHTML : option jsstring;
  listeners : list Listener;
  trace : list Effect
}.

(** ** The monad of the script: state plus exceptions *)

Inductive Completion (A : Type) :=
| Normal (a : A)
| Throw (e : Error).
Arguments Normal {A} a.
Arguments Throw {A} e.

Definition M (A : Type) : Type := World -> Completion A * World.

Definition ret {A} (a : A) : M A := fun w => (Normal a, w).

Definition bind {A B} (m : M A) (k : A -> M B) : M B := fun w =>
  match m w with
  | (Normal a, w') => k a w'
  | (Throw e, w') => (Throw e, w')
  end.

#[export] Instance M_ret : MRet M := @ret.
#[export] Instance M_bind : MBind M := fun A B k m => bind m k.

Definition throw {A} (e : Error) : M A := fun w => (Throw e, w).

(** What an effect does to the page.  A write to a node that is not there
    changes nothing; replacing the body detaches every element. *)
Definition perform (ev : Effect) (w : World) : World :=
  mkWorld
    (match ev with
     | DomWrite node m => alter (mutate m) node (document w)
     | BodyWrite _ => []
     | _ => document w
     end)
    (match ev with
     | BodyWrite html => Some html
     | _ => bodyHTML w
     end)
    (listeners w)
    (trace w ++ [ev]).

(** A sequence of effects, oldest first. *)
Definition exec (t : list Effect) (w : World) : World :=
  foldl (fun w ev => perform ev w) w t.

Definition emit (ev : Effect) : M unit := fun w => (Normal tt, perform ev w).

(** [try { body } catch (error) { handler error } finally { cleanup }] *)
Definition try_catch_finally {A} (body : M A) (handler : Error -> M A)
    (cleanup : M unit) : M A := fun w =>
  let '(r1, w1) := body w in
  let '(r2, w2) :=
    match r1 with
    | Normal a => (Normal a, w1)
    | Throw e => handler e w1
    end in
  match cleanup w2 with
  | (Normal _, w3) => (r2, w3)
  | (Throw e, w3) => (Throw e, w3)
  end.

(** A call of an [async] function that is not awaited, or a listener run
    by the event loop: the caller goes on normally whatever happens inside;
    an exception is reported by the browser and otherwise lost.  The
    effects of the call are listed at the point of the call, up to its
    settling: the world after [detached m] is the page once [m] has run to
    its end, not the page at the moment the caller gets control back. *)
Definition detached (m : M unit) : M unit := fun w =>
  match m w with
  | (Normal _, w') => (Normal tt, w')
  | (Throw e, w') => emit (Uncaught e) w'
  end.

(** The TypeError of a property access on [null]. *)
Definition TypeError_null : Error :=
  mkError (js "Cannot access properties of null").

Definition deref (h : handle) (w : World) : option Element :=
  r ← h; document w !! r.

(** Property read [h.p]. *)
Definition read {A} (h : handle) (p : Element -> A) : M A := fun w =>
  match deref h w with
  | Some e => (Normal (p e), w)
  | None => (Throw TypeError_null, w)
  end.

(** Property write or method call on the element behind [h]. *)
Definition write (h : handle) (m : Mutation) : M unit := fun w =>
  match h with
  | Some r =>
      match document w !! r with
      | Some _ => (Normal tt, perform (DomWrite r m) w)
      | None => (Throw TypeError_null, w)
      end
  | None => (Throw TypeError_null, w)
  end.

(** [document.getElementById]: the first element with that id. *)
Fixpoint find_index (P : Element -> bool) (d : list Element) : option nat :=
  match d with
  | [] => None
  | e :: d' => if P e then Some 0%nat else S <$> find_index P d'
  end.

Definition getElementById (s : jsstring) : M handle := fun w =>
  (Normal (find_index (fun e => bool_decide (elemId e = s)) (document w)), w).

(** [document.querySelectorAll('.c')]: the nodes carrying class [c], in
    document order (a static list). *)
Fixpoint select_from (i : nat) (c : jsstring) (d : list Element) : list nat :=
  match d with
  | [] => []
  | e :: d' =>
      if contains c e then i :: select_from (S i) c d'
      else select_from (S i) c d'
  end.

Definition querySelectorAll (c : jsstring) : M (list nat) := fun w =>
  (Normal (select_from 0%nat c (document w)), w).

(** [list.forEach(f)] *)
Fixpoint forEach {A} (l : list A) (f : A -> M unit) : M unit :=
  match l with
  | [] => mret tt
  | x :: l' => f x ;; forEach l' f
  end.

(** [document.body.innerHTML = html]: every element of the loaded page is
    detached. *)
Definition setBodyInnerHTML (html : jsstring) : M unit :=
  emit (BodyWrite html).

(** [h.addEventListener(type, listener)] *)
Definition addEventListener (h : handle) (type : jsstring)
    (c : ListenerCode) (hs : Handles) : M unit := fun w =>
  match deref h w, h with
  | Some _, Some r =>
      (Normal tt,
       mkWorld (document w) (bodyHTML w)
         (listeners w ++ [mkListener r type c hs]) (trace w))
  | _, _ => (Throw TypeError_null, w)
  end.

(** ** The script *)

Definition nl : jsstring := [10].

(** A template literal written line by line. *)
Definition lines (l : list jsstring) : jsstring := join nl l.

(** The [<div class="error">...</div>] wrapper of every message. *)
Definition errorDiv (msg : jsstring) : jsstring :=
  js "<div class=" ++ dq ++ js "error" ++ dq ++ js ">" ++ msg ++ js "</div>".

Definition loadingDiv : jsstring :=
  js "<div class=" ++ dq ++ js "loading" ++ dq ++ js "></div>".

Definition model : jsstring := js "gemini-2.5-pro".

(** Lines 98-131: the text before [${schema}], between the two
    interpolations, and after [${query}]. *)
Definition compliance_head : jsstring :=
  lines [
    js "";
    js "    You are a Data Governance Expert.";
    js "    Your task is to analyze a user's query against a given data schema, determine its compliance, and if it is compliant, show a sample of the query's result with all PII redacted.";
    js "";
    js "    **Data Schema:**";
    js "    ```json";
    js "    "
  ].

Definition compliance_mid : jsstring :=
  lines [
    js "";
    js "    ```";
    js "";
    js "    **User Query:**";
    js "    ```sql";
    js "    "
  ].

Definition compliance_tail : jsstring :=
  lines [
    js "";
    js "    ```";
    js "";
    js "    Please provide the following analysis in well-structured Markdown format:";
    js "";
    js "    ---";
    js "";
    js "    ### Compliance Analysis";
    js "";
    js "    **Compliance Status:** (State " ++ dq ++ js "Compliant" ++ dq ++ js " or " ++ dq ++ js "Non-Compliant" ++ dq ++ js ")";
    js "";
    js "    **Reasoning:** (If Non-Compliant, explain the violation. If Compliant, briefly state why.)";
    js "";
    js "    **Suggested Compliant Query:** (If Non-Compliant, provide a safe alternative. If Compliant, state that no changes are needed.)";
    js "";
    js "    ---";
    js "";
    js "    ### Sample Redacted Results";
    js "";
    js "    -   If the query is **Compliant**, generate a small, realistic, sample markdown table representing the query's output (3-4 rows).";
    js "    -   In this table, for any column identified as PII from the schema, replace its data with the placeholder `[REDACTED]`.";
    js "    -   If the query is **Non-Compliant**, simply state: " ++ dq ++ js "Redacted results are not generated for non-compliant queries." ++ dq;
    js "  "
  ].

Definition compliancePrompt (schema query : jsstring) : jsstring :=
  compliance_head ++ schema ++ compliance_mid ++ query ++ compliance_tail.

(** Lines 178-204. *)
Definition classifier_head : jsstring :=
  lines [
    js "";
    js "    You are a Data Classification Specialist.";
    js "    Your task is to analyze a data schema and a corresponding data sample to classify each field's sensitivity level. The data may be in JSON or CSV format.";
    js "";
    js "    **Data Schema:**";
    js "    ```";
    js "    "
  ].

Definition classifier_mid : jsstring :=
  lines [
    js "";
    js "    ```";
    js "";
    js "    **Data Sample:**";
    js "    ```";
    js "    "
  ].

Definition classifier_tail : jsstring :=
  lines [
    js "";
    js "    ```";
    js "";
    js "    Please perform the following:";
    js "    1.  Carefully examine each field provided in the schema.";
    js "    2.  Use the data sample to understand the context and typical values for each field.";
    js "    3.  Classify each field into one of the following categories:";
    js "        -   **PII (Personally Identifiable Information):** Data that can be used to identify a specific individual (e.g., name, email, address, phone number, IP address).";
    js "        -   **Sensitive:** Data that is confidential but not directly identifying (e.g., financial data, internal metrics, transaction amounts).";
    js "        -   **Public:** Non-sensitive data that can be shared openly (e.g., product IDs, transaction dates, public identifiers).";
    js "";
    js "    Present your findings in a clear Markdown table with the following columns:";
    js "    -   **Field Name**";
    js "    -   **Classification**";
    js "    -   **Reasoning** (Provide a brief justification for your classification).";
    js "  "
  ].

Definition classifierPrompt (schema sample : jsstring) : jsstring :=
  classifier_head ++ schema ++ classifier_mid ++ sample ++ classifier_tail.

(** The event object, as far as the listeners look at it:
    [event.target.files]. *)
Record Event := mkEvent { files : option (list File) }.

Definition tabButton (h : Handles) (t : Tab) : handle :=
  match t with
  | Compliance => tabCompliance h
  | Classifier => tabClassifier h
  end.

Definition tabContent (h : Handles) (t : Tab) : handle :=
  match t with
  | Compliance => contentCompliance h
  | Classifier => contentClassifier h
  end.

Section Script.
Context {E : Externals}.

(** Lines 38-50. *)
Definition switchTab (activeTab activeContent : handle) : M unit :=
  btns ← querySelectorAll (js "tab-button");
  forEach btns (fun btn =>
    write (Some btn) (ClassRemove (js "active")) ;;
    write (Some btn) (SetAttribute (js "aria-selected") (js "false"))) ;;
  contents ← querySelectorAll (js "tab-content");
  forEach contents (fun content =>
    write (Some content) (ClassRemove (js "active"))) ;;
  write activeTab (ClassAdd (js "active")) ;;
  write activeTab (SetAttribute (js "aria-selected") (js "true")) ;;
  write activeContent (ClassAdd (js "active")).

(** Lines 52-53: the click listener of the tab button of mode [t]. *)
Definition onTabClick (h : Handles) (t : Tab) : M unit :=
  switchTab (tabButton h t) (tabContent h t).

(** [await ai.models.generateContentStream({model, contents})] *)
Definition ai_generateContentStream (model contents : jsstring)
  : M (list Chunk * StreamEnd) :=
  emit (ModelRequest model contents) ;;
  match generateContentStream model contents with
  | Rejected e => throw e
  | Stream chunks fin => mret (chunks, fin)
  end.

(** [for await (const chunk of stream) body], with the loop-carried
    variable threaded through. *)
Fixpoint forAwait {S} (chunks : list Chunk) (fin : StreamEnd) (s : S)
    (body : S -> Chunk -> M S) : M S :=
  match chunks with
  | [] =>
      match fin with
      | Completed => mret s
      | Failed e => throw e
      end
  | chunk :: rest => s' ← body s chunk; forAwait rest fin s' body
  end.

(** Lines 60-86. *)
Definition streamResponse (prompt : jsstring)
    (resultElement buttonElement : handle) : M unit :=
  write buttonElement (SetDisabled true) ;;
  write resultElement (SetInnerHTML loadingDiv) ;;
  try_catch_finally
    (responseStream ← ai_generateContentStream model prompt;
     let fullResponse : jsstring := [] in
     write resultElement (SetInnerHTML []) ;;
     forAwait responseStream.1 responseStream.2 fullResponse
       (fun fullResponse chunk =>
          let fullResponse := fullResponse ++ ToString (text chunk) in
          write resultElement (SetInnerHTML (marked_parse fullResponse)) ;;
          mret fullResponse) ;;
     mret tt)
    (fun error =>
       emit (ConsoleError error) ;;
       write resultElement
         (SetInnerHTML (errorDiv (js "An error occurred: " ++ message error))))
    (write buttonElement (SetDisabled false)).

(** Lines 89-134. *)
Definition onCheckCompliance (h : Handles) : M unit :=
  schema ← read (schemaInputCompliance h) value;
  query ← read (queryInput h) value;
  if falsy (trim schema) || falsy (trim query) then
    write (complianceResult h)
      (SetInnerHTML (errorDiv (js "Schema and Query cannot be empty.")))
  else
    let prompt := compliancePrompt schema query in
    detached (streamResponse prompt (complianceResult h) (checkComplianceBtn h)).

(** The object literal of lines 152-155. *)
Definition schemaObject (fileName : jsstring)
    (fields : option (list jsstring)) : JSValue :=
  JObject [
    (js "name", JString fileName);
    (js "fields",
     match fields with
     | Some fs =>
         JArray ((fun f => JObject [(js "name", JString f);
                                    (js "type", JString (js "unknown"))]) <$> fs)
     | None => JUndefined
     end)
  ].

(** Lines 140-166.  The library reads the file and later calls one of the
    two callbacks; nothing else of the script runs in between. *)
Definition onFileChange (h : Handles) (event : Event) : M unit :=
  match files event ≫= head with
  | None => mret tt
  | Some file =>
      let cfg := mkParseConfig true 5 in
      emit (ParseRequest file cfg) ;;
      match Papa_parse file cfg with
      | Complete results =>
          let headers := join (js ", ") <$> meta_fields results in
          let schemaForPrompt :=
            JSON_stringify (schemaObject (name file) (meta_fields results)) 2 in
          let sampleData := Papa_unparse (data results) in
          write (schemaInputClassifier h) (SetValue schemaForPrompt) ;;
          write (sampleInput h) (SetValue sampleData)
      | ParseFailed error =>
          write (classifierResult h)
            (SetInnerHTML (errorDiv (js "Error parsing file: " ++ message error)))
      end
  end.

(** Lines 169-206. *)
Definition onClassifyData (h : Handles) : M unit :=
  schema ← read (schemaInputClassifier h) value;
  sample ← read (sampleInput h) value;
  if falsy (trim schema) || falsy (trim sample) then
    write (classifierResult h)
      (SetInnerHTML (errorDiv (js "Schema and Data Sample cannot be empty.")))
  else
    let prompt := classifierPrompt schema sample in
    detached (streamResponse prompt (classifierResult h) (classifyDataBtn h)).

Definition runListener (l : Listener) (event : Event) : M unit :=
  let h := env l in
  match code l with
  | OnTab t => onTabClick h t
  | OnCheckCompliance => onCheckCompliance h
  | OnFileChange => onFileChange h event
  | OnClassifyData => onClassifyData h
  end.

(** The browser delivering an event of type [type] to node [node]. *)
Definition dispatchEvent (node : nat) (type : jsstring) (event : Event)
  : M unit := fun w =>
  forEach
    (filter (fun l => target l = node ∧ eventType l = type) (listeners w))
    (fun l => detached (runListener l event)) w.

(** The module body, lines 10-35 and the five [addEventListener] calls.
    [API_KEY] is [process.env.API_KEY]: a string or [undefined]. *)
Definition main (API_KEY : option jsstring) : M Handles :=
  if (match API_KEY with Some k => falsy k | None => true end) then
    setBodyInnerHTML (errorDiv (js "Missing API Key!")) ;;
    throw (mkError (js "Missing API Key"))
  else
    tabCompliance ← getElementById (js "tab-compliance");
    tabClassifier ← getElementById (js "tab-classifier");
    contentCompliance ← getElementById (js "content-compliance");
    contentClassifier ← getElementById (js "content-classifier");
    schemaInputCompliance ← getElementById (js "schema-input-compliance");
    queryInput ← getElementById (js "query-input");
    checkComplianceBtn ← getElementById (js "check-compliance-btn");
    complianceResult ← getElementById (js "compliance-result");
    fileUpload ← getElementById (js "file-upload");
    schemaInputClassifier ← getElementById (js "schema-input-classifier");
    sampleInput ← getElementById (js "sample-input");
    classifyDataBtn ← getElementById (js "classify-data-btn");
    classifierResult ← getElementById (js "classifier-result");
    let h := mkHandles tabCompliance tabClassifier contentCompliance
               contentClassifier schemaInputCompliance queryInput
               checkComplianceBtn complianceResult fileUpload
               schemaInputClassifier sampleInput classifyDataBtn
               classifierResult in
    addEventListener tabCompliance (js "click") (OnTab Compliance) h ;;
    addEventListener tabClassifier (js "click") (OnTab Classifier) h ;;
    addEventListener checkComplianceBtn (js "click") OnCheckCompliance h ;;
    addEventListener fileUpload (js "change") OnFileChange h ;;
    addEventListener classifyDataBtn (js "click") OnClassifyData h ;;
    mret h.

End Script.

(** ** Observations used in the statements *)

(** The page as the browser hands it to the script. *)
Definition loaded (d : list Element) : World := mkWorld d None [] [].

(** The model requests recorded in a log. *)
Definition requests (t : list Effect) : list (jsstring * jsstring) :=
  omap (fun ev =>
          match ev with
          | ModelRequest m c => Some (m, c)
          | _ => None
          end) t.

Definition isBodyWrite (ev : Effect) : bool :=
  match ev with
  | BodyWrite _ => true
  | _ => false
  end.

(** [h.classList.contains(c)], [h.getAttribute(k)] and property reads on
    the page, as observations. *)
Definition hasClass (c : jsstring) (node : nat) (w : World) : Prop :=
  exists e, document w !! node = Some e /\ c ∈ classList e.

Definition getAttribute (k : jsstring) (node : nat) (w : World)
  : option jsstring :=
  e ← document w !! node; attributes e !! k.

Definition prop {A} (p : Element -> A) (h : handle) (w : World) : option A :=
  p <$> deref h w.

(** The two action buttons by mode: the inputs they read, the surface
    they write to, the control that triggers them, and the validation
    message. *)
Definition firstInput (h : Handles) (t : Tab) : handle :=
  match t with
  | Compliance => schemaInputCompliance h
  | Classifier => schemaInputClassifier h
  end.

Definition secondInput (h : Handles) (t : Tab) : handle :=
  match t with
  | Compliance => queryInput h
  | Classifier => sampleInput h
  end.

Definition resultSurface (h : Handles) (t : Tab) : handle :=
  match t with
  | Compliance => complianceResult h
  | Classifier => classifierResult h
  end.

Definition triggerControl (h : Handles) (t : Tab) : handle :=
  match t with
  | Compliance => checkComplianceBtn h
  | Classifier => classifyDataBtn h
  end.

Definition validationError (t : Tab) : jsstring :=
  match t with
  | Compliance => errorDiv (js "Schema and Query cannot be empty.")
  | Classifier => errorDiv (js "Schema and Data Sample cannot be empty.")
  end.

(** Both tab buttons and both panels are elements of the page. *)
Definition tabs_present (h : Handles) (w : World) : Prop :=
  forall t, is_Some (deref (tabButton h t) w) /\
            is_Some (deref (tabContent h t) w).

(** What the two loops of [switchTab] do to one element, and the
    document after [switchTab(tb, tc)] as one expression. *)
Definition unmarkButton (e : Element) : Element :=
  if contains (js "tab-button") e
  then mutate (SetAttribute (js "aria-selected") (js "false"))
         (mutate (ClassRemove (js "active")) e)
  else e.

Definition unmarkContent (e : Element) : Element :=
  if contains (js "tab-content") e
  then mutate (ClassRemove (js "active")) e
  else e.

Definition switched (tb tc : nat) (d : list Element) : list Element :=
  alter (mutate (ClassAdd (js "active"))) tc
    (alter (mutate (SetAttribute (js "aria-selected") (js "true"))) tb
       (alter (mutate (ClassAdd (js "active"))) tb
          (unmarkContent <$> (unmarkButton <$> d)))).

(** Node [tb] and node [tc] are marked, [tb] is the selected tab, and no
    other tab button or content panel is marked or selected. *)
Definition exclusively_active (tb tc : nat) (w : World) : Prop :=
  hasClass (js "active") tb w /\
  hasClass (js "active") tc w /\
  getAttribute (js "aria-selected") tb w = Some (js "true") /\
  (forall node,
     hasClass (js "tab-button") node w \/ hasClass (js "tab-content") node w ->
     hasClass (js "active") node w ->
     node = tb \/ node = tc) /\
  (forall node,
     hasClass (js "tab-button") node w ->
     node <> tb ->
     getAttribute (js "aria-selected") node w = Some (js "false")).

Section Observations.
Context {E : Externals}.

(** The user clicking tab buttons, one after the other. *)
Definition clickTabs (h : Handles) (clicks : list Tab) : M unit :=
  forEach clicks (onTabClick h).

Definition onAction (h : Handles) (t : Tab) : M unit :=
  match t with
  | Compliance => onCheckCompliance h
  | Classifier => onClassifyData h
  end.

(** What one chunk adds to the accumulated answer (line 77). *)
Definition appended (chunk : Chunk) : jsstring := ToString (text chunk).

(** The successive renders of a stream whose fragments are [texts], when
    the accumulator starts at [acc]: the n-th one shows the first n
    fragments together. *)
Definition renders (r : nat) (acc : jsstring) (texts : list jsstring)
  : list Effect :=
  (fun n => DomWrite r (SetInnerHTML (marked_parse (acc ++ concat (take n texts)))))
    <$> seq 1 (length texts).

(** The catch block. *)
Definition failure_effects (r : nat) (e : Error) : list Effect :=
  [ConsoleError e;
   DomWrite r (SetInnerHTML (errorDiv (js "An error occurred: " ++ message e)))].

(** Everything one call of [streamResponse] does, by what the service
    answers. *)
Definition stream_effects (prompt : jsstring) (r b : nat) (resp : Response)
  : list Effect :=
  [DomWrite b (SetDisabled true);
   DomWrite r (SetInnerHTML loadingDiv);
   ModelRequest model prompt] ++
  match resp with
  | Rejected e => failure_effects r e
  | Stream chunks fin =>
      DomWrite r (SetInnerHTML []) :: renders r [] (appended <$> chunks) ++
      match fin with
      | Completed => []
      | Failed e => failure_effects r e
      end
  end ++
  [DomWrite b (SetDisabled false)].

(** The contract of the parser's [preview] option for one configuration:
    called with [cfg], the parser hands at most [preview cfg] data rows to
    [complete].  (The library reads [preview: 0] as "no limit", so the
    contract is not assumed for every configuration, only for the one a
    statement names.) *)
Definition preview_respected (cfg : ParseConfig) : Prop :=
  forall f results,
    Papa_parse f cfg = Complete results ->
    (length (data results) <= preview cfg)%nat.

(** The layout of the serialiser's output for rows keyed by column name:
    nothing for no rows; otherwise a header record made from the columns
    of the first row, then one record per row, separated by [sep]. *)
Definition unparse_by_rows (sep : jsstring) (header : Row -> jsstring)
    (record : Row -> Row -> jsstring) : Prop :=
  Papa_unparse [] = [] /\
  forall (r : Row) (rows : list Row),
    r <> [] ->
    Papa_unparse (r :: rows) = join sep (header r :: (record r <$> r :: rows)).

End Observations.

(** ** A simulated environment

    Stand-ins for the three libraries and a page carrying the thirteen
    ids, used to run the model on concrete inputs. *)

Fixpoint splitOn (sep : N) (s : jsstring) : list jsstring :=
  match s with
  | [] => [[]]
  | c :: s' =>
      if c =? sep then [] :: splitOn sep s'
      else match splitOn sep s' with
           | cur :: rest => (c :: cur) :: rest
           | [] => [[c]]
           end
  end.

(** Comma-separated text, first line the header, no quoting.  As in the
    library, only a file that cannot be read goes to the [error] callback;
    text in which no table is found (here: the empty text) goes to
    [complete] with no rows and the problem listed in [errors]; and
    [preview: 0] means no limit. *)
Definition sim_parse (f : File) (cfg : ParseConfig) : ParseOutcome :=
  match contents f with
  | None => ParseFailed (mkError (js "The file could not be read."))
  | Some [] =>
      Complete
        (mkParseResults []
           [mkError (js "Unable to auto-detect delimiting character; defaulted to ','")]
           (Some []))
  | Some s =>
      match splitOn 10 s with
      | hd :: rows =>
          let fields := splitOn 44 hd in
          let kept :=
            match preview cfg with
            | O => rows
            | n => take n rows
            end in
          Complete
            (mkParseResults ((fun r => zip fields (splitOn 44 r)) <$> kept)
               [] (Some fields))
      | [] => Complete (mkParseResults [] [] (Some []))
      end
  end.

Definition sim_unparse (rows : list Row) : jsstring :=
  match rows with
  | [] => []
  | r :: _ =>
      lines (join (js ",") (fst <$> r)
               :: ((fun r => join (js ",") (snd <$> r)) <$> rows))
  end.

(** A compact serialiser without escaping or indentation. *)
Fixpoint sim_stringify_value (v : JSValue) : jsstring :=
  match v with
  | JUndefined => js "undefined"
  | JString s => dq ++ s ++ dq
  | JArray items => js "[" ++ join (js ",") (sim_stringify_value <$> items) ++ js "]"
  | JObject props =>
      js "{" ++
      join (js ",")
        ((fun p => dq ++ p.1 ++ dq ++ js ":" ++ sim_stringify_value p.2) <$> props)
      ++ js "}"
  end.

(** The service: an empty prompt is rejected, a classification prompt
    breaks after its first fragment, anything else streams "Hel", "lo". *)
Definition sim_service (model contents : jsstring) : Response :=
  if falsy contents then Rejected (mkError (js "network down"))
  else if bool_decide (contents = classifierPrompt (js "{}") (js "a,b"))
  then Stream [mkChunk (Some (js "Hel"))] (Failed (mkError (js "stream reset")))
  else Stream [mkChunk (Some (js "Hel")); mkChunk (Some (js "lo"))] Completed.

(** The stand-ins around a given service. *)
Definition sim_with (service : jsstring -> jsstring -> Response) : Externals := {|
  generateContentStream := service;
  marked_parse := fun s => js "<p>" ++ s ++ js "</p>";
  Papa_parse := sim_parse;
  Papa_unparse := sim_unparse;
  JSON_stringify := fun v _ => sim_stringify_value v
|}.

Definition sim : Externals := sim_with sim_service.

(** A completed stream whose last chunk carries no text part. *)
Definition sim_textless_stream : Response :=
  Stream [mkChunk (Some (js "Hel")); mkChunk (Some (js "lo")); mkChunk None]
    Completed.

(** A failure whose description holds markup characters: the text of the
    error a JSON reader raises when it is handed an HTML page. *)
Definition sim_markup_message : jsstring :=
  js "Unexpected token '<', " ++ dq ++ js "<!DOCTYPE " ++ dq ++
  js "... is not valid JSON".

Definition sim_markup_failure : Response :=
  Rejected (mkError sim_markup_message).

Definition sim_element (id : string) (classes : list string) (v : string)
  : Element :=
  mkElement (js id) (js <$> classes) ∅ [] (js v) false.

Definition sim_page : list Element := [
  sim_element "tab-compliance" ["tab-button"; "active"] "";
  sim_element "tab-classifier" ["tab-button"] "";
  sim_element "content-compliance" ["tab-content"; "active"] "";
  sim_element "content-classifier" ["tab-content"] "";
  sim_element "schema-input-compliance" [] "{}";
  sim_element "query-input" [] "SELECT 1";
  sim_element "check-compliance-btn" [] "";
  sim_element "compliance-result" [] "";
  sim_element "file-upload" [] "";
  sim_element "schema-input-classifier" [] "{}";
  sim_element "sample-input" [] "   ";
  sim_element "classify-data-btn" [] "";
  sim_element "classifier-result" [] ""
]%string.

Definition sim_handles : Handles :=
  (mkHandles (Some 0) (Some 1) (Some 2) (Some 3) (Some 4) (Some 5) (Some 6)
     (Some 7) (Some 8) (Some 9) (Some 10) (Some 11) (Some 12))%nat.

(** A file with header a,b and six data rows. *)
Definition sim_file : File :=
  mkFile (js "people.csv")
    (Some (lines (js <$> ["a,b"; "1,2"; "3,4"; "5,6"; "7,8"; "9,10"; "11,12"]%string))).

(** A file with no text in it, and a file the browser can no longer read. *)
Definition sim_empty_file : File := mkFile (js "empty.csv") (Some []).

Definition sim_unreadable_file : File := mkFile (js "gone.csv") None.

(** ** Observations for the frame and wiring properties *)

(** The errors written to the console in a log. *)
Definition consoleErrors (t : list Effect) : list Error :=
  omap (fun ev =>
          match ev with
          | ConsoleError e => Some e
          | _ => None
          end) t.

(** The writes to [disabled] in a log. *)
Definition disabledWrites (t : list Effect) : list (nat * bool) :=
  omap (fun ev =>
          match ev with
          | DomWrite node (SetDisabled v) => Some (node, v)
          | _ => None
          end) t.

(** The prompt of each mode. *)
Definition promptOf (t : Tab) (schema second : jsstring) : jsstring :=
  match t with
  | Compliance => compliancePrompt schema second
  | Classifier => classifierPrompt schema second
  end.

(** A computation is confined to the effects [P] when, from every page,
    the page it ends in is reached by a sequence of effects all in [P]:
    it does nothing to the page but those. *)
Definition confined {A} (P : Effect -> Prop) (m : M A) : Prop :=
  forall w, exists t, (m w).2 = exec t w /\ Forall P t.

(** Effect [ev] cannot change what [p] reads on node [n]. *)
Definition preserves {A} (p : Element -> A) (n : nat) (ev : Effect) : Prop :=
  match ev with
  | DomWrite node m => node = n -> forall e, p (mutate m e) = p e
  | BodyWrite _ => False
  | _ => True
  end.

(** The effects of [streamResponse(prompt, r, b)]. *)
Inductive stream_effect (prompt : jsstring) (r b : handle) : Effect -> Prop :=
| se_request : stream_effect prompt r b (ModelRequest model prompt)
| se_console e : stream_effect prompt r b (ConsoleError e)
| se_result n html :
    r = Some n -> stream_effect prompt r b (DomWrite n (SetInnerHTML html))
| se_button n v :
    b = Some n -> stream_effect prompt r b (DomWrite n (SetDisabled v)).

(** The effects of [switchTab]. *)
Inductive tab_effect : Effect -> Prop :=
| te_add n : tab_effect (DomWrite n (ClassAdd (js "active")))
| te_remove n : tab_effect (DomWrite n (ClassRemove (js "active")))
| te_selected n v :
    tab_effect (DomWrite n (SetAttribute (js "aria-selected") v)).

(** The effects of the file-input listener. *)
Inductive upload_effect (h : Handles) : Effect -> Prop :=
| ue_parse f cfg : upload_effect h (ParseRequest f cfg)
| ue_schema n v :
    schemaInputClassifier h = Some n ->
    upload_effect h (DomWrite n (SetValue v))
| ue_sample n v :
    sampleInput h = Some n -> upload_effect h (DomWrite n (SetValue v))
| ue_error n html :
    classifierResult h = Some n ->
    upload_effect h (DomWrite n (SetInnerHTML html)).

(** The effects of the click listener of mode [t]. *)
Inductive action_effect (h : Handles) (t : Tab) : Effect -> Prop :=
| ae_request prompt : action_effect h t (ModelRequest model prompt)
| ae_console e : action_effect h t (ConsoleError e)
| ae_uncaught e : action_effect h t (Uncaught e)
| ae_result n html :
    resultSurface h t = Some n ->
    action_effect h t (DomWrite n (SetInnerHTML html))
| ae_button n v :
    triggerControl h t = Some n ->
    action_effect h t (DomWrite n (SetDisabled v)).

(** The listeners of lines 52-53, 89, 140 and 169, in registration
    order: target, event type, code. *)
Definition wiring (h : Handles) : list (handle * jsstring * ListenerCode) :=
  [(tabCompliance h, js "click", OnTab Compliance);
   (tabClassifier h, js "click", OnTab Classifier);
   (checkComplianceBtn h, js "click", OnCheckCompliance);
   (fileUpload h, js "change", OnFileChange);
   (classifyDataBtn h, js "click", OnClassifyData)].

(** The ids looked up in lines 21-35 and the handles they give, in the
    same order. *)
Definition handle_ids : list jsstring :=
  js <$> ["tab-compliance"; "tab-classifier"; "content-compliance";
          "content-classifier"; "schema-input-compliance"; "query-input";
          "check-compliance-btn"; "compliance-result"; "file-upload";
          "schema-input-classifier"; "sample-input"; "classify-data-btn";
          "classifier-result"]%string.

Definition all_handles (h : Handles) : list handle :=
  [tabCompliance h; tabClassifier h; contentCompliance h;
   contentClassifier h; schemaInputCompliance h; queryInput h;
   checkComplianceBtn h; complianceResult h; fileUpload h;
   schemaInputClassifier h; sampleInput h; classifyDataBtn h;
   classifierResult h].

(** The handles of a document: what lines 21-35 compute. *)
Definition locate (d : list Element) : Handles :=
  let find s := find_index (fun e => bool_decide (elemId e = s)) d in
  mkHandles
    (find (js "tab-compliance")) (find (js "tab-classifier"))
    (find (js "content-compliance")) (find (js "content-classifier"))
    (find (js "schema-input-compliance")) (find (js "query-input"))
    (find (js "check-compliance-btn")) (find (js "compliance-result"))
    (find (js "file-upload")) (find (js "schema-input-classifier"))
    (find (js "sample-input")) (find (js "classify-data-btn"))
    (find (js "classifier-result")).

(** What [switchTab] does to one element: [isTab] when it is the tab
    button passed, [isContent] when it is the panel passed. *)
Definition switchedElement (isTab isContent : bool) (e : Element) : Element :=
  (if isContent then mutate (ClassAdd (js "active")) else id)
    ((if isTab
      then mutate (SetAttribute (js "aria-selected") (js "true"))
             ∘ mutate (ClassAdd (js "active"))
      else id)
       (unmarkContent (unmarkButton e))).

(** The ways two logs can be merged, each keeping its own order. *)
Inductive interleaving {A} : list A -> list A -> list A -> Prop :=
| il_nil : interleaving [] [] []
| il_left x t1 t2 t :
    interleaving t1 t2 t -> interleaving (x :: t1) t2 (x :: t)
| il_right x t1 t2 t :
    interleaving t1 t2 t -> interleaving t1 (x :: t2) (x :: t).

(** After effect [ev], what [p] reads on node [n] is determined by what
    it read before. *)
Definition determines {A} (p : Element -> A) (n : nat) (ev : Effect) : Prop :=
  match ev with
  | DomWrite node m =>
      node = n -> forall e e', p e = p e' -> p (mutate m e) = p (mutate m e')
  | BodyWrite _ => False
  | _ => True
  end.

(** The simulated page with a sample typed into the classifier. *)
Definition sim_page_filled : list Element :=
  <[10%nat := sim_element "sample-input" [] "a,b"]> sim_page.

(** The run of [addEventListener] calls at the end of the module body. *)
Fixpoint register (h : Handles)
    (l : list (handle * jsstring * ListenerCode)) : M unit :=
  match l with
  | [] => mret tt
  | x :: l' => addEventListener x.1.1 x.1.2 x.2 h ;; register h l'
  end.

(** How many entries come before the first one whose target is [null]. *)
Fixpoint present_prefix (l : list (handle * jsstring * ListenerCode)) : nat :=
  match l with
  | (Some _, _, _) :: l' => S (present_prefix l')
  | _ => 0%nat
  end.

(** A registered listener, described as an entry of [wiring]. *)
Definition describe (l : Listener) : handle * jsstring * ListenerCode :=
  (Some (target l), eventType l, code l).

(** A page on which the result surface of the compliance checker was not
    found, and one without the classifier's panel. *)
Definition sim_handles_no_surface : Handles :=
  (mkHandles (Some 0) (Some 1) (Some 2) (Some 3) (Some 4) (Some 5) (Some 6)
     None (Some 8) (Some 9) (Some 10) (Some 11) (Some 12))%nat.

Definition sim_page_no_upload : list Element :=
  filter (fun e => elemId e <> js "file-upload") sim_page.

Section Delivery.
Context {E : Externals}.

(** The browser delivering events one after the other: node, type and
    event object of each. *)
Definition deliver (events : list (nat * jsstring * Event)) : M unit :=
  forEach events (fun ev => dispatchEvent ev.1.1 ev.1.2 ev.2).

End Delivery.

(** * Verification *)

(** ** Strings *)

Lemma falsy_true (s : jsstring) : falsy s = true <-> s = [].
Proof. destruct s; simpl; split; congruence. Qed.

Lemma trimStart_nil_iff (s : jsstring) :
  trimStart s = [] <-> whitespace_only s.
Proof.
  unfold whitespace_only.
  induction s as [|c s IH]; simpl.
  - split; [constructor | reflexivity].
  - destruct (isWhiteSpace c) eqn:Hc.
    + rewrite IH. split.
      * intros Hs. constructor; assumption.
      * intros Hs. inversion Hs; assumption.
    + split; [discriminate|].
      intros Hs. inversion Hs; congruence.
Qed.

Lemma trimStart_head (s u : jsstring) (c : N) :
  trimStart s = c :: u -> isWhiteSpace c = false.
Proof.
  induction s as [|a s IH]; simpl; [discriminate|].
  destruct (isWhiteSpace a) eqn:Ha; [exact IH|].
  intros [= -> _]. exact Ha.
Qed.

Lemma reverse_nil_iff {A} (l : list A) : reverse l = [] <-> l = [].
Proof.
  split; [|intros ->; reflexivity].
  intros H. apply (f_equal reverse) in H.
  rewrite reverse_involutive in H. exact H.
Qed.

(** [trim] leaves nothing exactly when the string is blank. *)
Lemma falsy_trim (s : jsstring) :
  falsy (trim s) = true <-> whitespace_only s.
Proof.
  rewrite falsy_true. unfold trim, trimEnd.
  rewrite reverse_nil_iff, trimStart_nil_iff.
  destruct (trimStart s) as [|c u] eqn:Hs.
  - split; [intros _; apply trimStart_nil_iff; exact Hs | constructor].
  - split.
    + intros Hw. pose proof (trimStart_head _ _ _ Hs) as Hc.
      unfold whitespace_only in Hw.
      rewrite reverse_cons in Hw. apply Forall_app in Hw as [_ Hw].
      inversion Hw; congruence.
    + intros Hw. apply trimStart_nil_iff in Hw. congruence.
Qed.

Lemma falsy_trim_false (s : jsstring) :
  falsy (trim s) = false <-> ~ whitespace_only s.
Proof.
  rewrite <- falsy_trim. destruct (falsy (trim s)); split; congruence.
Qed.

Lemma substring_of_app (t pre post : jsstring) :
  substring_of t (pre ++ t ++ post).
Proof. exists pre, post. reflexivity. Qed.

Example isWhiteSpace_samples :
  isWhiteSpace 0x20 = true /\ isWhiteSpace 0x0A = true /\
  isWhiteSpace 0xA0 = true /\ isWhiteSpace 0x2003 = true /\
  isWhiteSpace 0x3000 = true /\ isWhiteSpace 0xFEFF = true /\
  isWhiteSpace 0x200B = false /\ isWhiteSpace 0x41 = false.
Proof. repeat split. Qed.

Example trim_samples :
  trim (js "  a b  ") = js "a b" /\
  trim ([9; 10] ++ js "x" ++ [13; 0x2028]) = js "x" /\
  trim (js "   ") = [] /\
  trim [] = [].
Proof. repeat split. Qed.

(** ** The monad and the effect log *)

Lemma bind_normal {A B} (m : M A) (k : A -> M B) w a w' :
  m w = (Normal a, w') -> (m ≫= k) w = k a w'.
Proof. intros H. unfold mbind, M_bind, bind. rewrite H. reflexivity. Qed.

Lemma bind_throw {A B} (m : M A) (k : A -> M B) w e w' :
  m w = (Throw e, w') -> (m ≫= k) w = (Throw e, w').
Proof. intros H. unfold mbind, M_bind, bind. rewrite H. reflexivity. Qed.

Lemma exec_nil w : exec [] w = w.
Proof. reflexivity. Qed.

Lemma exec_cons ev t w : exec (ev :: t) w = exec t (perform ev w).
Proof. reflexivity. Qed.

Lemma exec_app t1 t2 w : exec (t1 ++ t2) w = exec t2 (exec t1 w).
Proof. unfold exec. apply foldl_app. Qed.

Lemma exec_snoc t ev w : exec (t ++ [ev]) w = perform ev (exec t w).
Proof. rewrite exec_app. reflexivity. Qed.

Lemma trace_exec t w : trace (exec t w) = trace w ++ t.
Proof.
  revert w. induction t as [|ev t IH]; intros w.
  - simpl. rewrite app_nil_r. reflexivity.
  - rewrite exec_cons, IH. simpl. rewrite <- app_assoc. reflexivity.
Qed.

Lemma listeners_exec t w : listeners (exec t w) = listeners w.
Proof.
  revert w. induction t as [|ev t IH]; intros w; [reflexivity|].
  rewrite exec_cons, IH. reflexivity.
Qed.

Lemma length_perform ev w :
  isBodyWrite ev = false ->
  length (document (perform ev w)) = length (document w).
Proof.
  destruct ev; simpl; try reflexivity; try discriminate.
  intros _. apply length_alter.
Qed.

Lemma length_exec t w :
  forallb (fun ev => negb (isBodyWrite ev)) t = true ->
  length (document (exec t w)) = length (document w).
Proof.
  revert w. induction t as [|ev t IH]; intros w Ht; [reflexivity|].
  simpl in Ht. apply andb_prop in Ht as [Hev Ht].
  rewrite exec_cons, IH by exact Ht.
  apply length_perform. destruct (isBodyWrite ev); [discriminate|reflexivity].
Qed.

Lemma bodyHTML_exec t w :
  forallb (fun ev => negb (isBodyWrite ev)) t = true ->
  bodyHTML (exec t w) = bodyHTML w.
Proof.
  revert w. induction t as [|ev t IH]; intros w Ht; [reflexivity|].
  simpl in Ht. apply andb_prop in Ht as [Hev Ht].
  rewrite exec_cons, IH by exact Ht.
  destruct ev; simpl in *; try reflexivity; discriminate.
Qed.

Lemma write_ok r m w :
  is_Some (document w !! r) ->
  write (Some r) m w = (Normal tt, perform (DomWrite r m) w).
Proof. intros [e He]. unfold write. rewrite He. reflexivity. Qed.

Lemma read_ok {A} h (p : Element -> A) w e :
  deref h w = Some e -> read h p w = (Normal (p e), w).
Proof. intros He. unfold read. rewrite He. reflexivity. Qed.

Lemma is_Some_perform r ev w :
  isBodyWrite ev = false ->
  is_Some (document w !! r) -> is_Some (document (perform ev w) !! r).
Proof.
  intros Hev Hr. apply lookup_lt_is_Some.
  rewrite length_perform by exact Hev.
  apply lookup_lt_is_Some. exact Hr.
Qed.

(** Closes "the node is still there" after a few writes. *)
Ltac still_present :=
  repeat (apply is_Some_perform; [reflexivity|]); assumption.

Lemma is_Some_exec r t w :
  forallb (fun ev => negb (isBodyWrite ev)) t = true ->
  is_Some (document w !! r) -> is_Some (document (exec t w) !! r).
Proof.
  intros Ht Hr. apply lookup_lt_is_Some.
  rewrite length_exec by exact Ht.
  apply lookup_lt_is_Some. exact Hr.
Qed.

(** A property that a mutation leaves alone survives a write. *)
Lemma prop_perform_frame {A} (p : Element -> A) h node m w :
  (forall e, p (mutate m e) = p e) ->
  prop p h (perform (DomWrite node m) w) = prop p h w.
Proof.
  intros Hp. unfold prop, deref. destruct h as [r|]; [|reflexivity].
  simpl. destruct (decide (node = r)) as [->|Hne].
  - rewrite list_lookup_alter_eq.
    destruct (document w !! r); simpl; [rewrite Hp|]; reflexivity.
  - rewrite list_lookup_alter_ne by exact Hne. reflexivity.
Qed.

Lemma prop_perform_other {A} (p : Element -> A) h ev w :
  (forall node m, ev <> DomWrite node m) ->
  isBodyWrite ev = false ->
  prop p h (perform ev w) = prop p h w.
Proof.
  intros Hev Hb. unfold prop, deref.
  destruct ev; simpl in *; try reflexivity; try discriminate.
  exfalso. eapply Hev. reflexivity.
Qed.

(** The property just written reads back, on a node that is there. *)
Lemma prop_perform_hit {A} (p : Element -> A) r m w :
  is_Some (document w !! r) ->
  prop p (Some r) (perform (DomWrite r m) w)
  = (fun e => p (mutate m e)) <$> document w !! r.
Proof.
  intros [e He]. unfold prop, deref. simpl.
  rewrite list_lookup_alter_eq, He. reflexivity.
Qed.

(** ** The streaming renderer *)

Section Renderer.
Context {E : Externals}.

Lemma renders_nil r acc : renders r acc [] = [].
Proof. reflexivity. Qed.

Lemma renders_cons r acc t ts :
  renders r acc (t :: ts)
  = DomWrite r (SetInnerHTML (marked_parse (acc ++ t))) :: renders r (acc ++ t) ts.
Proof.
  unfold renders. simpl length. simpl seq. rewrite fmap_cons.
  f_equal.
  - simpl. rewrite app_nil_r. reflexivity.
  - rewrite <- fmap_S_seq, <- list_fmap_compose.
    apply list_fmap_ext. intros _ n _. simpl.
    rewrite <- app_assoc. reflexivity.
Qed.

Lemma renders_snoc r acc ts t :
  renders r acc (ts ++ [t])
  = renders r acc ts
    ++ [DomWrite r (SetInnerHTML (marked_parse (acc ++ concat (ts ++ [t]))))].
Proof.
  revert acc. induction ts as [|t' ts IH]; intros acc.
  - cbn [app]. rewrite renders_cons, renders_nil. cbn [app concat].
    rewrite app_nil_r. reflexivity.
  - cbn [app]. rewrite !renders_cons, IH. cbn [app concat].
    rewrite <- !app_assoc. reflexivity.
Qed.

Lemma renders_dom r acc ts :
  forallb (fun ev => negb (isBodyWrite ev)) (renders r acc ts) = true.
Proof.
  revert acc. induction ts as [|t ts IH]; intros acc; [reflexivity|].
  rewrite renders_cons. simpl. apply IH.
Qed.

Lemma requests_renders r acc ts : requests (renders r acc ts) = [].
Proof.
  revert acc. induction ts as [|t ts IH]; intros acc; [reflexivity|].
  rewrite renders_cons. unfold requests in *. simpl. apply IH.
Qed.

Lemma stream_effects_dom prompt r b resp :
  forallb (fun ev => negb (isBodyWrite ev)) (stream_effects prompt r b resp)
  = true.
Proof.
  unfold stream_effects.
  destruct resp as [e|chunks [|e]]; simpl;
    rewrite ?forallb_app, ?renders_dom; reflexivity.
Qed.

(** The loop of lines 76-79 performs exactly the renders, then ends the
    way the stream ends. *)
Lemma forAwait_exec r chunks fin acc w :
  is_Some (document w !! r) ->
  forAwait chunks fin acc
    (fun fullResponse chunk =>
       let fullResponse := fullResponse ++ ToString (text chunk) in
       write (Some r) (SetInnerHTML (marked_parse fullResponse)) ;;
       mret fullResponse) w
  = (match fin with
     | Completed => Normal (acc ++ concat (appended <$> chunks))
     | Failed e => Throw e
     end,
     exec (renders r acc (appended <$> chunks)) w).
Proof.
  revert acc w. induction chunks as [|c chunks IH]; intros acc w Hr.
  - simpl. rewrite app_nil_r. destruct fin; reflexivity.
  - cbn [forAwait]. cbv zeta in IH |- *.
    erewrite bind_normal; cycle 1.
    { erewrite bind_normal; [reflexivity|]. apply write_ok. exact Hr. }
    rewrite IH by still_present.
    rewrite fmap_cons, renders_cons, exec_cons. simpl concat.
    rewrite app_assoc. reflexivity.
Qed.

(** One call of [streamResponse] on two elements of the page never
    throws and performs [stream_effects]. *)
Lemma streamResponse_exec prompt r b w :
  is_Some (document w !! r) ->
  is_Some (document w !! b) ->
  streamResponse prompt (Some r) (Some b) w
  = (Normal tt,
     exec (stream_effects prompt r b (generateContentStream model prompt)) w).
Proof.
  intros Hr Hb. unfold streamResponse, stream_effects.
  erewrite bind_normal by (apply write_ok; exact Hb).
  erewrite bind_normal by (apply write_ok; still_present).
  rewrite app_assoc, exec_snoc. cbn [app]. rewrite !exec_cons.
  set (w2 := perform (DomWrite r (SetInnerHTML loadingDiv))
               (perform (DomWrite b (SetDisabled true)) w)).
  set (w3 := perform (ModelRequest model prompt) w2).
  assert (Hr3 : is_Some (document w3 !! r)) by (subst w3 w2; still_present).
  assert (Hb3 : is_Some (document w3 !! b)) by (subst w3 w2; still_present).
  unfold try_catch_finally, ai_generateContentStream.
  destruct (generateContentStream model prompt) as [e|chunks fin].
  - (* the request is rejected: catch, then finally *)
    erewrite (bind_throw _ _ w2)
      by (erewrite bind_normal by reflexivity; reflexivity).
    fold w3. unfold failure_effects.
    erewrite bind_normal by reflexivity.
    rewrite write_ok by still_present.
    rewrite write_ok by still_present.
    reflexivity.
  - (* a stream is returned: the loop, then catch or not, then finally *)
    erewrite (bind_normal _ _ w2)
      by (erewrite bind_normal by reflexivity; reflexivity).
    fold w3. cbv zeta. cbn [fst snd].
    erewrite bind_normal by (apply write_ok; exact Hr3).
    set (w4 := perform (DomWrite r (SetInnerHTML [])) w3).
    assert (Hr4 : is_Some (document w4 !! r)) by still_present.
    assert (Hb4 : is_Some (document w4 !! b)) by still_present.
    pose proof (forAwait_exec r chunks fin [] w4 Hr4) as Hloop.
    cbv zeta in Hloop.
    rewrite exec_cons. fold w4. rewrite exec_app.
    set (w5 := exec (renders r [] (appended <$> chunks)) w4) in *.
    assert (Hr5 : is_Some (document w5 !! r))
      by (apply is_Some_exec; [apply renders_dom|exact Hr4]).
    assert (Hb5 : is_Some (document w5 !! b))
      by (apply is_Some_exec; [apply renders_dom|exact Hb4]).
    destruct fin as [|e].
    + erewrite bind_normal by exact Hloop.
      unfold mret, M_ret, ret. rewrite exec_nil.
      rewrite write_ok by exact Hb5. reflexivity.
    + erewrite bind_throw by exact Hloop.
      unfold failure_effects.
      erewrite bind_normal by reflexivity.
      rewrite write_ok by still_present.
      rewrite write_ok by still_present.
      reflexivity.
Qed.

(** After a log that ends with a write of the result's markup followed by
    re-enabling the button, the result shows that markup. *)
Lemma innerHTML_exec_last r b s t w :
  forallb (fun ev => negb (isBodyWrite ev)) t = true ->
  is_Some (document w !! r) ->
  prop innerHTML (Some r)
    (exec (t ++ [DomWrite r (SetInnerHTML s); DomWrite b (SetDisabled false)]) w)
  = Some s.
Proof.
  intros Ht Hr. rewrite exec_app, !exec_cons, exec_nil.
  rewrite prop_perform_frame by reflexivity.
  pose proof (is_Some_exec r t w Ht Hr) as [e He].
  rewrite prop_perform_hit by (rewrite He; eauto).
  rewrite He. reflexivity.
Qed.

Lemma disabled_exec_last b t w :
  forallb (fun ev => negb (isBodyWrite ev)) t = true ->
  is_Some (document w !! b) ->
  prop disabled (Some b) (exec (t ++ [DomWrite b (SetDisabled false)]) w)
  = Some false.
Proof.
  intros Ht Hb. rewrite exec_snoc.
  pose proof (is_Some_exec b t w Ht Hb) as [e He].
  rewrite prop_perform_hit by (rewrite He; eauto).
  rewrite He. reflexivity.
Qed.

(** What the chunks append is the list of their texts exactly when every
    chunk carries one. *)
Lemma appended_carried chunks :
  Forall (fun c => is_Some (text c)) chunks ->
  appended <$> chunks = omap text chunks.
Proof.
  induction 1 as [|c l [s Hs] _ IH]; [reflexivity|].
  rewrite fmap_cons. cbn [omap list_omap]. unfold appended at 1.
  rewrite Hs. cbn [ToString]. f_equal. exact IH.
Qed.

(** When the service answers with a finite stream that completes
    normally, [streamResponse] leaves in the result surface the rendering
    of the concatenation, in arrival order, of what each chunk appended:
    its text, or the word "undefined" for a chunk that carries none; the
    n-th intermediate render is the rendering of the first n of them
    together.  When every chunk carries a text this is the rendering of
    the concatenation of all fragments.  For the stream without chunks the
    surface is left empty, which is that rendering when the renderer maps
    the empty text to the empty markup. *)
Theorem stream_final_render prompt (r b : nat) w chunks :
  is_Some (document w !! r) ->
  is_Some (document w !! b) ->
  generateContentStream model prompt = Stream chunks Completed ->
  chunks <> [] \/ marked_parse [] = [] ->
  exists w',
    streamResponse prompt (Some r) (Some b) w = (Normal tt, w') /\
    prop innerHTML (Some r) w'
      = Some (marked_parse (concat (appended <$> chunks))) /\
    (Forall (fun c => is_Some (text c)) chunks ->
     prop innerHTML (Some r) w'
       = Some (marked_parse (concat (omap text chunks)))) /\
    prop innerHTML (Some r) w'
      = Some (match chunks with
              | [] => []
              | _ :: _ => marked_parse (concat (appended <$> chunks))
              end) /\
    trace w'
      = trace w ++
        [DomWrite b (SetDisabled true);
         DomWrite r (SetInnerHTML loadingDiv);
         ModelRequest model prompt;
         DomWrite r (SetInnerHTML [])] ++
        ((fun n =>
            DomWrite r
              (SetInnerHTML (marked_parse (concat (take n (appended <$> chunks))))))
           <$> seq 1 (length chunks)) ++
        [DomWrite b (SetDisabled false)].
Proof.
  intros Hr Hb Hresp Hempty.
  eexists. split; [apply streamResponse_exec; assumption|].
  rewrite Hresp. unfold stream_effects.
  assert (Hshown :
    prop innerHTML (Some r)
      (exec
         ([DomWrite b (SetDisabled true); DomWrite r (SetInnerHTML loadingDiv);
           ModelRequest model prompt] ++
          (DomWrite r (SetInnerHTML []) :: renders r [] (appended <$> chunks) ++ []) ++
          [DomWrite b (SetDisabled false)]) w)
    = Some (match chunks with
            | [] => []
            | _ :: _ => marked_parse (concat (appended <$> chunks))
            end)).
  { destruct chunks as [|c0 chunks0] using rev_ind.
    - apply (innerHTML_exec_last r b []
               [DomWrite b (SetDisabled true);
                DomWrite r (SetInnerHTML loadingDiv);
                ModelRequest model prompt]); [reflexivity|exact Hr].
    - clear IHchunks0.
      rewrite fmap_app. change (appended <$> [c0]) with [appended c0].
      rewrite renders_snoc, app_nil_l, app_nil_r.
      replace (match chunks0 ++ [c0] with
               | [] => []
               | _ :: _ => marked_parse (concat ((appended <$> chunks0) ++ [appended c0]))
               end)
        with (marked_parse (concat ((appended <$> chunks0) ++ [appended c0])))
        by (destruct chunks0; reflexivity).
      rewrite <- (innerHTML_exec_last r b
                    (marked_parse (concat ((appended <$> chunks0) ++ [appended c0])))
                    ([DomWrite b (SetDisabled true);
                      DomWrite r (SetInnerHTML loadingDiv);
                      ModelRequest model prompt;
                      DomWrite r (SetInnerHTML [])] ++
                     renders r [] (appended <$> chunks0)) w);
        [|rewrite forallb_app, renders_dom; reflexivity|exact Hr].
      f_equal. f_equal. cbn [app]. rewrite <- !app_assoc. reflexivity. }
  assert (Hfinal :
    prop innerHTML (Some r)
      (exec
         ([DomWrite b (SetDisabled true); DomWrite r (SetInnerHTML loadingDiv);
           ModelRequest model prompt] ++
          (DomWrite r (SetInnerHTML []) :: renders r [] (appended <$> chunks) ++ []) ++
          [DomWrite b (SetDisabled false)]) w)
    = Some (marked_parse (concat (appended <$> chunks)))).
  { rewrite Hshown. destruct chunks as [|c chunks']; [|reflexivity].
    destruct Hempty as [Hne|Hmd]; [congruence|].
    simpl. rewrite Hmd. reflexivity. }
  split; [exact Hfinal|]. split; [|split].
  - intros Hall. rewrite Hfinal, (appended_carried chunks Hall). reflexivity.
  - exact Hshown.
  - rewrite trace_exec. unfold renders. rewrite length_fmap, app_nil_r.
    reflexivity.
Qed.

(** C2: whatever the service answers (the request is rejected, the stream
    completes, or it fails after some fragments), a call of
    [streamResponse] on two elements of the page ends normally, its last
    effect is re-enabling the trigger control, and the control is enabled
    afterwards. *)
Theorem button_reenabled_last prompt (r b : nat) w :
  is_Some (document w !! r) ->
  is_Some (document w !! b) ->
  exists w',
    streamResponse prompt (Some r) (Some b) w = (Normal tt, w') /\
    last (trace w') = Some (DomWrite b (SetDisabled false)) /\
    prop disabled (Some b) w' = Some false.
Proof.
  intros Hr Hb.
  eexists. split; [apply streamResponse_exec; assumption|].
  pose proof (stream_effects_dom prompt r b
                (generateContentStream model prompt)) as Hdom.
  unfold stream_effects in *.
  set (t := match generateContentStream model prompt with
            | Rejected e => failure_effects r e
            | Stream chunks fin => _
            end) in *.
  rewrite app_assoc in Hdom |- *.
  rewrite forallb_app in Hdom. apply andb_prop in Hdom as [Hdom _].
  split.
  - rewrite trace_exec, app_assoc. apply last_snoc.
  - apply disabled_exec_last; assumption.
Qed.

(** When the request is rejected or the stream fails, after any number of
    chunks, the markup assigned last to the result surface is the error
    wrapper with the failure's message spliced in as it is, without any
    escaping, and the call has issued exactly one request to the
    service. *)
Theorem failure_markup_no_retry prompt (r b : nat) w e :
  is_Some (document w !! r) ->
  is_Some (document w !! b) ->
  generateContentStream model prompt = Rejected e \/
  (exists chunks,
     generateContentStream model prompt = Stream chunks (Failed e)) ->
  exists w',
    streamResponse prompt (Some r) (Some b) w = (Normal tt, w') /\
    prop innerHTML (Some r) w'
      = Some (errorDiv (js "An error occurred: " ++ message e)) /\
    substring_of (message e)
      (errorDiv (js "An error occurred: " ++ message e)) /\
    requests (trace w') = requests (trace w) ++ [(model, prompt)].
Proof.
  intros Hr Hb Hfail.
  eexists. split; [apply streamResponse_exec; assumption|].
  split; [|split].
  - destruct Hfail as [Hresp|[chunks Hresp]];
      rewrite Hresp; unfold stream_effects, failure_effects.
    + apply (innerHTML_exec_last r b _
               [DomWrite b (SetDisabled true);
                DomWrite r (SetInnerHTML loadingDiv);
                ModelRequest model prompt; ConsoleError e]);
        [reflexivity|exact Hr].
    + rewrite <- (innerHTML_exec_last r b
                    (errorDiv (js "An error occurred: " ++ message e))
                    ([DomWrite b (SetDisabled true);
                      DomWrite r (SetInnerHTML loadingDiv);
                      ModelRequest model prompt;
                      DomWrite r (SetInnerHTML [])] ++
                     renders r [] (appended <$> chunks) ++ [ConsoleError e]) w);
        [|rewrite !forallb_app, renders_dom; reflexivity|exact Hr].
      f_equal. f_equal. cbn [app]. rewrite <- !app_assoc. reflexivity.
  - unfold errorDiv.
    exists (js "<div class=" ++ dq ++ js "error" ++ dq ++ js ">"
              ++ js "An error occurred: "), (js "</div>").
    rewrite <- !app_assoc. reflexivity.
  - rewrite trace_exec. unfold requests. rewrite omap_app. f_equal.
    fold requests.
    destruct Hfail as [Hresp|[chunks Hresp]];
      rewrite Hresp; unfold stream_effects, failure_effects.
    + reflexivity.
    + unfold requests. cbn [app omap list_omap].
      rewrite !omap_app. fold requests. rewrite requests_renders.
      reflexivity.
Qed.

Lemma requests_stream_effects prompt r b resp :
  requests (stream_effects prompt r b resp) = [(model, prompt)].
Proof.
  unfold stream_effects, failure_effects.
  destruct resp as [e|chunks [|e]]; [reflexivity| |];
    unfold requests; cbn [app omap list_omap]; rewrite !omap_app;
    fold requests; rewrite requests_renders; reflexivity.
Qed.

End Renderer.

(** ** The view controller *)

Section Controller.
Context {E : Externals}.

Lemma prop_Some_deref {A} (p : Element -> A) h w a :
  prop p h w = Some a -> exists e, deref h w = Some e /\ p e = a.
Proof.
  unfold prop. destruct (deref h w) as [e|]; [|discriminate].
  intros [= <-]. eauto.
Qed.

Lemma detached_normal m w w' :
  m w = (Normal tt, w') -> detached m w = (Normal tt, w').
Proof. intros H. unfold detached. rewrite H. reflexivity. Qed.

(** C3: when the schema or the second input (the query of the compliance
    checker, the sample of the classifier) is empty or consists of white
    space only, the click listener does one thing: it writes the validation
    message into the result surface of its mode.  [streamResponse] is not
    entered (its first effect would be disabling the button) and no request
    reaches the service. *)
Theorem blank_input_rejected (h : Handles) (t : Tab) w schema second
    (r : nat) :
  prop value (firstInput h t) w = Some schema ->
  prop value (secondInput h t) w = Some second ->
  resultSurface h t = Some r ->
  is_Some (document w !! r) ->
  whitespace_only schema \/ whitespace_only second ->
  exists w',
    onAction h t w = (Normal tt, w') /\
    prop innerHTML (Some r) w' = Some (validationError t) /\
    trace w' = trace w ++ [DomWrite r (SetInnerHTML (validationError t))] /\
    requests (trace w') = requests (trace w).
Proof.
  intros Hs Hq Hres Hr Hblank.
  apply prop_Some_deref in Hs as (es & Hes & <-).
  apply prop_Some_deref in Hq as (eq & Heq & <-).
  assert (Hcond : falsy (trim (value es)) || falsy (trim (value eq)) = true).
  { apply orb_true_iff. rewrite !falsy_trim. exact Hblank. }
  exists (perform (DomWrite r (SetInnerHTML (validationError t))) w).
  split; [|split; [|split]].
  - destruct t; simpl in *; unfold onCheckCompliance, onClassifyData;
      (erewrite bind_normal by (eapply read_ok; exact Hes));
      (erewrite bind_normal by (eapply read_ok; exact Heq));
      rewrite Hcond, Hres; apply write_ok; exact Hr.
  - rewrite prop_perform_hit by exact Hr.
    destruct Hr as [e ->]. reflexivity.
  - reflexivity.
  - simpl. unfold requests. rewrite omap_app, app_nil_r. reflexivity.
Qed.

(** C5: with a schema and a query that are not blank, the compliance
    listener sends exactly one request, whose prompt is the fixed template
    with the two inputs spliced in unchanged: head, schema, middle, query,
    tail.  Both inputs and the three template parts are substrings of it. *)
Theorem compliance_prompt_embeds_inputs (h : Handles) w schema query
    (r b : nat) :
  prop value (schemaInputCompliance h) w = Some schema ->
  prop value (queryInput h) w = Some query ->
  complianceResult h = Some r ->
  checkComplianceBtn h = Some b ->
  is_Some (document w !! r) ->
  is_Some (document w !! b) ->
  ~ whitespace_only schema ->
  ~ whitespace_only query ->
  exists w' prompt,
    onCheckCompliance h w = (Normal tt, w') /\
    requests (trace w') = requests (trace w) ++ [(model, prompt)] /\
    prompt = compliancePrompt schema query /\
    prompt
      = compliance_head ++ schema ++ compliance_mid ++ query ++ compliance_tail /\
    substring_of schema prompt /\
    substring_of query prompt /\
    substring_of compliance_head prompt /\
    substring_of compliance_mid prompt /\
    substring_of compliance_tail prompt.
Proof.
  intros Hs Hq Hres Hbtn Hr Hb Hns Hnq.
  apply prop_Some_deref in Hs as (es & Hes & <-).
  apply prop_Some_deref in Hq as (eq & Heq & <-).
  apply falsy_trim_false in Hns, Hnq.
  eexists _, (compliancePrompt (value es) (value eq)).
  split; [|split; [|split; [|split]]].
  - unfold onCheckCompliance.
    erewrite bind_normal by (eapply read_ok; exact Hes).
    erewrite bind_normal by (eapply read_ok; exact Heq).
    rewrite Hns, Hnq, Hres, Hbtn. cbn [orb]. cbv zeta.
    apply detached_normal, streamResponse_exec; assumption.
  - rewrite trace_exec. unfold requests. rewrite omap_app. fold requests.
    rewrite requests_stream_effects. reflexivity.
  - reflexivity.
  - reflexivity.
  - unfold compliancePrompt. repeat split.
    + exists compliance_head, (compliance_mid ++ value eq ++ compliance_tail).
      reflexivity.
    + exists (compliance_head ++ value es ++ compliance_mid), compliance_tail.
      rewrite <- !app_assoc. reflexivity.
    + exists [], (value es ++ compliance_mid ++ value eq ++ compliance_tail).
      reflexivity.
    + exists (compliance_head ++ value es), (value eq ++ compliance_tail).
      rewrite <- !app_assoc. reflexivity.
    + exists (compliance_head ++ value es ++ compliance_mid ++ value eq), [].
      rewrite <- !app_assoc, app_nil_r. reflexivity.
Qed.

(** C10: a change event without a selected file (no file list, or an empty
    one) leaves the whole page as it was: no field or surface is written,
    and nothing is handed to the parser (the log does not grow). *)
Theorem no_file_no_effect (h : Handles) w :
  onFileChange h (mkEvent None) w = (Normal tt, w) /\
  onFileChange h (mkEvent (Some [])) w = (Normal tt, w).
Proof. split; reflexivity. Qed.

(** When the parser calls the [error] callback, which it does when the
    file cannot be read, the listener assigns the error wrapper around the
    parser's message to the classifier's result surface, and the values of
    the schema field and of the sample field (of every field, in fact) are
    what they were before. *)
Theorem unreadable_file_keeps_fields (h : Handles) w event file e (r : nat) :
  files event ≫= head = Some file ->
  Papa_parse file (mkParseConfig true 5) = ParseFailed e ->
  classifierResult h = Some r ->
  is_Some (document w !! r) ->
  exists w',
    onFileChange h event w = (Normal tt, w') /\
    prop innerHTML (Some r) w'
      = Some (errorDiv (js "Error parsing file: " ++ message e)) /\
    substring_of (message e)
      (errorDiv (js "Error parsing file: " ++ message e)) /\
    prop value (schemaInputClassifier h) w'
      = prop value (schemaInputClassifier h) w /\
    prop value (sampleInput h) w' = prop value (sampleInput h) w /\
    (forall x, prop value x w' = prop value x w).
Proof.
  intros Hfile Hparse Hres Hr.
  assert (Hframe : forall x,
    prop value x
      (exec [ParseRequest file (mkParseConfig true 5);
             DomWrite r (SetInnerHTML
                           (errorDiv (js "Error parsing file: " ++ message e)))] w)
    = prop value x w).
  { intros x. rewrite !exec_cons, exec_nil.
    rewrite prop_perform_frame by reflexivity.
    apply prop_perform_other; [discriminate|reflexivity]. }
  eexists. split; [|split; [|split; [|split; [|split]]]].
  - unfold onFileChange. rewrite Hfile. cbv zeta.
    erewrite bind_normal by reflexivity.
    rewrite Hparse, Hres.
    rewrite write_ok by still_present.
    reflexivity.
  - rewrite prop_perform_hit by still_present.
    destruct Hr as [er Her]. simpl. rewrite Her. reflexivity.
  - unfold errorDiv.
    exists (js "<div class=" ++ dq ++ js "error" ++ dq ++ js ">"
              ++ js "Error parsing file: "), (js "</div>").
    rewrite <- !app_assoc. reflexivity.
  - apply Hframe.
  - apply Hframe.
  - exact Hframe.
Qed.

(** The [complete] callback on two fields of the page: the request to the
    parser followed by the two assignments, whatever [results] holds. *)
Lemma onFileChange_complete (h : Handles) w event file results (s p : nat) :
  files event ≫= head = Some file ->
  Papa_parse file (mkParseConfig true 5) = Complete results ->
  schemaInputClassifier h = Some s ->
  sampleInput h = Some p ->
  is_Some (document w !! s) ->
  is_Some (document w !! p) ->
  onFileChange h event w
  = (Normal tt,
     exec [ParseRequest file (mkParseConfig true 5);
           DomWrite s
             (SetValue (JSON_stringify
                          (schemaObject (name file) (meta_fields results)) 2));
           DomWrite p (SetValue (Papa_unparse (data results)))] w).
Proof.
  intros Hfile Hparse Hs Hp Hvs Hvp.
  unfold onFileChange. rewrite Hfile. cbv zeta.
  erewrite bind_normal by reflexivity.
  rewrite Hparse, Hs, Hp.
  erewrite bind_normal
    by (apply write_ok; still_present).
  rewrite write_ok by still_present.
  reflexivity.
Qed.

Lemma complete_values file cfg (s p : nat) vs vp w :
  s <> p ->
  is_Some (document w !! s) ->
  is_Some (document w !! p) ->
  let w' := exec [ParseRequest file cfg; DomWrite s (SetValue vs);
                  DomWrite p (SetValue vp)] w in
  prop value (Some s) w' = Some vs /\
  prop value (Some p) w' = Some vp /\
  (forall x, prop innerHTML x w' = prop innerHTML x w).
Proof.
  intros Hne Hvs Hvp. cbv zeta. split; [|split].
  - unfold prop, deref. simpl.
    rewrite list_lookup_alter_ne by (intros ->; apply Hne; reflexivity).
    rewrite list_lookup_alter_eq.
    destruct Hvs as [es ->]. reflexivity.
  - unfold prop, deref. simpl.
    rewrite list_lookup_alter_eq, list_lookup_alter_ne by exact Hne.
    destruct Hvp as [ep ->]. reflexivity.
  - intros x. rewrite !exec_cons, exec_nil.
    rewrite !prop_perform_frame by reflexivity.
    apply prop_perform_other; [discriminate|reflexivity].
Qed.

(** C7 (the code departs from the claim): a file whose text cannot be
    parsed cleanly comes back from the parser through [complete], with the
    problems listed in [results.errors].  The listener never reads them:
    it overwrites the schema field and the sample field with whatever was
    parsed, and assigns no error string, nor any other markup, to any
    result surface. *)
Theorem parse_errors_overwrite_fields (h : Handles) w event file results
    (s p : nat) :
  files event ≫= head = Some file ->
  Papa_parse file (mkParseConfig true 5) = Complete results ->
  errors results <> [] ->
  schemaInputClassifier h = Some s ->
  sampleInput h = Some p ->
  s <> p ->
  is_Some (document w !! s) ->
  is_Some (document w !! p) ->
  exists w',
    onFileChange h event w = (Normal tt, w') /\
    trace w'
      = trace w ++
        [ParseRequest file (mkParseConfig true 5);
         DomWrite s
           (SetValue (JSON_stringify
                        (schemaObject (name file) (meta_fields results)) 2));
         DomWrite p (SetValue (Papa_unparse (data results)))] /\
    prop value (Some s) w'
      = Some (JSON_stringify
                (schemaObject (name file) (meta_fields results)) 2) /\
    prop value (Some p) w' = Some (Papa_unparse (data results)) /\
    (forall x, prop innerHTML x w' = prop innerHTML x w).
Proof.
  intros Hfile Hparse _ Hs Hp Hne Hvs Hvp.
  eexists. split; [eapply onFileChange_complete; eassumption|].
  split; [apply trace_exec|].
  apply complete_values; assumption.
Qed.

(** C6: when the parser completes, the schema field receives the
    serialisation of the object [{name, fields}] whose field list has one
    entry per parsed header name, in order, each of them [{name, type}]
    with the type "unknown"; the sample field receives the re-serialised
    parsed rows.  The parser is called with [header: true] and
    [preview: 5] and the rows it hands over go to the serialiser as they
    are; so, the parser honouring the limit it was given and the
    serialiser writing a header record and one record per row, the sample
    is the header record followed by at most five data records (and empty
    when no row was parsed). *)
Theorem extractor_fields_and_sample (h : Handles) w event file results
    (s p : nat) sep header record :
  preview_respected (mkParseConfig true 5) ->
  unparse_by_rows sep header record ->
  files event ≫= head = Some file ->
  Papa_parse file (mkParseConfig true 5) = Complete results ->
  schemaInputClassifier h = Some s ->
  sampleInput h = Some p ->
  s <> p ->
  is_Some (document w !! s) ->
  is_Some (document w !! p) ->
  exists w',
    onFileChange h event w = (Normal tt, w') /\
    trace w'
      = trace w ++
        [ParseRequest file (mkParseConfig true 5);
         DomWrite s
           (SetValue (JSON_stringify
                        (schemaObject (name file) (meta_fields results)) 2));
         DomWrite p (SetValue (Papa_unparse (data results)))] /\
    prop value (Some s) w'
      = Some (JSON_stringify
                (schemaObject (name file) (meta_fields results)) 2) /\
    (forall names, meta_fields results = Some names ->
       exists entries,
         schemaObject (name file) (meta_fields results)
           = JObject [(js "name", JString (name file));
                      (js "fields", JArray entries)] /\
         length entries = length names /\
         forall i f, names !! i = Some f ->
           entries !! i
             = Some (JObject [(js "name", JString f);
                              (js "type", JString (js "unknown"))])) /\
    prop value (Some p) w' = Some (Papa_unparse (data results)) /\
    (length (data results) <= 5)%nat /\
    match data results with
    | [] => prop value (Some p) w' = Some []
    | r :: _ =>
        r <> [] ->
        prop value (Some p) w'
          = Some (join sep (header r :: (record r <$> data results)))
    end.
Proof.
  intros Hpreview [Hnone Hrows] Hfile Hparse Hs Hp Hne Hvs Hvp.
  eexists. split; [eapply onFileChange_complete; eassumption|].
  split; [apply trace_exec|].
  destruct (complete_values file (mkParseConfig true 5) s p
              (JSON_stringify (schemaObject (name file) (meta_fields results)) 2)
              (Papa_unparse (data results)) w Hne Hvs Hvp)
    as (Hvals & Hvalp & _).
  split; [exact Hvals|]. split; [|split; [exact Hvalp|split]].
  - intros names Hnames. rewrite Hnames. simpl.
    eexists. split; [reflexivity|]. split.
    + apply length_fmap.
    + intros i f Hi. rewrite list_lookup_fmap, Hi. reflexivity.
  - apply (Hpreview file results Hparse).
  - rewrite Hvalp. destruct (data results) as [|r rows].
    + rewrite Hnone. reflexivity.
    + intros Hr. rewrite (Hrows r rows Hr). reflexivity.
Qed.

End Controller.

(** ** Start-up *)

(** C9: without the credential in the process configuration the script
    replaces the page body by the static error markup and throws; no
    listener has been registered, so no event delivered to the page
    afterwards does anything. *)
Theorem missing_key_halts (d : list Element) :
  let halted :=
    mkWorld [] (Some (errorDiv (js "Missing API Key!"))) []
      [BodyWrite (errorDiv (js "Missing API Key!"))] in
  main None (loaded d) = (Throw (mkError (js "Missing API Key")), halted) /\
  listeners halted = [] /\
  forall (E : Externals) node type event,
    dispatchEvent node type event halted = (Normal tt, halted).
Proof. repeat split. Qed.

(** ** Tab navigation *)

Lemma elem_of_classList_mutate m e (x : jsstring) :
  x ∈ classList (mutate m e) <->
  match m with
  | ClassAdd c => x ∈ classList e \/ x = c
  | ClassRemove c => x ∈ classList e /\ x <> c
  | _ => x ∈ classList e
  end.
Proof.
  destruct m as [| | |c|c|]; simpl; try reflexivity.
  - unfold contains. case_bool_decide as Hc.
    + split; [auto|]. intros [Hx| ->]; assumption.
    + rewrite elem_of_app, list_elem_of_singleton. reflexivity.
  - rewrite list_elem_of_filter. tauto.
Qed.

Lemma classList_add (c x : jsstring) e :
  x ∈ classList (mutate (ClassAdd c) e) <-> x ∈ classList e \/ x = c.
Proof. apply (elem_of_classList_mutate (ClassAdd c)). Qed.

Lemma classList_remove (c x : jsstring) e :
  x ∈ classList (mutate (ClassRemove c) e) <-> x ∈ classList e /\ x <> c.
Proof. apply (elem_of_classList_mutate (ClassRemove c)). Qed.

Lemma classList_setAttribute (k v : jsstring) e :
  classList (mutate (SetAttribute k v) e) = classList e.
Proof. reflexivity. Qed.

Lemma attributes_classAdd (c : jsstring) e :
  attributes (mutate (ClassAdd c) e) = attributes e.
Proof. reflexivity. Qed.

Lemma attributes_setAttribute (k v : jsstring) e :
  attributes (mutate (SetAttribute k v) e) !! k = Some v.
Proof. simpl. apply lookup_insert_eq. Qed.

Lemma forEach_cons {A} (x : A) l (f : A -> M unit) w w1 :
  f x w = (Normal tt, w1) -> forEach (x :: l) f w = forEach l f w1.
Proof. intros H. cbn [forEach]. erewrite bind_normal by exact H. reflexivity. Qed.

Lemma forEach_app {A} (l1 l2 : list A) (f : A -> M unit) w w1 :
  forEach l1 f w = (Normal tt, w1) ->
  forEach (l1 ++ l2) f w = forEach l2 f w1.
Proof.
  revert w. induction l1 as [|x l1 IH]; intros w H.
  - injection H as ->. reflexivity.
  - cbn [app forEach] in *. unfold mbind, M_bind, bind in *.
    destruct (f x w) as [[[]|e] w0]; [|discriminate].
    apply IH. exact H.
Qed.

(** A loop over the elements of class [c] whose body rewrites its own
    element by [g] maps [g] over those elements. *)
Lemma forEach_select (c : jsstring) (g : Element -> Element)
    (body : nat -> M unit) :
  (forall n w, is_Some (document w !! n) ->
     exists w', body n w = (Normal tt, w') /\
                document w' = alter g n (document w)) ->
  forall d pre w, document w = pre ++ d ->
    exists w',
      forEach (select_from (length pre) c d) body w = (Normal tt, w') /\
      document w' = pre ++ ((fun e => if contains c e then g e else e) <$> d).
Proof.
  intros Hbody. induction d as [|e d IH]; intros pre w Hdoc.
  - exists w. split; [reflexivity|]. exact Hdoc.
  - cbn [select_from]. rewrite fmap_cons.
    assert (Hlen : forall x : Element, S (length pre) = length (pre ++ [x])).
    { intros x. rewrite length_app. simpl. lia. }
    destruct (contains c e) eqn:Hc.
    + destruct (Hbody (length pre) w) as (w1 & Hrun & Hdoc1).
      { rewrite Hdoc, list_lookup_middle by reflexivity. eauto. }
      rewrite Hdoc in Hdoc1.
      rewrite <- (Nat.add_0_r (length pre)) in Hdoc1 at 1.
      rewrite alter_app_r in Hdoc1. simpl in Hdoc1.
      rewrite cons_middle, app_assoc in Hdoc1.
      rewrite (Hlen (g e)).
      destruct (IH _ _ Hdoc1) as (w' & Hrest & Hdoc').
      exists w'. split.
      * erewrite forEach_cons; [exact Hrest|exact Hrun].
      * rewrite Hdoc', <- app_assoc. reflexivity.
    + rewrite cons_middle, app_assoc in Hdoc.
      rewrite (Hlen e).
      destruct (IH _ _ Hdoc) as (w' & Hrest & Hdoc').
      exists w'. split; [exact Hrest|].
      rewrite Hdoc', <- app_assoc. reflexivity.
Qed.

Lemma classList_unmarkButton (x : jsstring) e :
  x ∈ classList (unmarkButton e) <->
  x ∈ classList e /\ (x = js "active" -> js "tab-button" ∉ classList e).
Proof.
  unfold unmarkButton, contains. case_bool_decide as Hc.
  - rewrite classList_setAttribute, classList_remove. split.
    + intros [Hx Hne]. split; [exact Hx|]. intros Heq. contradiction.
    + intros [Hx Himp]. split; [exact Hx|]. intros Heq. exact (Himp Heq Hc).
  - split; [intros Hx; split; auto|intros [Hx _]; exact Hx].
Qed.

Lemma classList_unmarkContent (x : jsstring) e :
  x ∈ classList (unmarkContent e) <->
  x ∈ classList e /\ (x = js "active" -> js "tab-content" ∉ classList e).
Proof.
  unfold unmarkContent, contains. case_bool_decide as Hc.
  - rewrite classList_remove. split.
    + intros [Hx Hne]. split; [exact Hx|]. intros Heq. contradiction.
    + intros [Hx Himp]. split; [exact Hx|]. intros Heq. exact (Himp Heq Hc).
  - split; [intros Hx; split; auto|intros [Hx _]; exact Hx].
Qed.

(** The element at node [i] after a switch, from the one before. *)
Lemma lookup_switched tb tc d i :
  switched tb tc d !! i
  = (fun e =>
       (if decide (tc = i) then mutate (ClassAdd (js "active")) else id)
         ((if decide (tb = i)
           then mutate (SetAttribute (js "aria-selected") (js "true"))
                  ∘ mutate (ClassAdd (js "active"))
           else id)
            (unmarkContent (unmarkButton e)))) <$> d !! i.
Proof.
  unfold switched. rewrite !list_lookup_alter, !list_lookup_fmap.
  destruct (decide (tc = i)) as [->|Hc], (decide (tb = i)) as [->|Hb];
    rewrite ?decide_True by reflexivity;
    rewrite ?list_lookup_fmap; destruct (d !! i); reflexivity.
Qed.

(** Classes other than "active" are where they were. *)
Lemma switched_class_frame tb tc (w w' : World) (c : jsstring) node :
  document w' = switched tb tc (document w) ->
  c <> js "active" ->
  hasClass c node w' <-> hasClass c node w.
Proof.
  intros Hdoc Hc. unfold hasClass. rewrite Hdoc, lookup_switched.
  destruct (document w !! node) as [e|]; simpl;
    [|split; intros (e' & He' & _); discriminate].
  assert (Hiff : forall e',
    e' = (if decide (tc = node) then mutate (ClassAdd (js "active")) else id)
           ((if decide (tb = node)
             then mutate (SetAttribute (js "aria-selected") (js "true"))
                    ∘ mutate (ClassAdd (js "active"))
             else id) (unmarkContent (unmarkButton e))) ->
    c ∈ classList e' <-> c ∈ classList e).
  { intros e' ->.
    destruct (decide (tc = node)), (decide (tb = node));
      unfold compose, id;
      rewrite ?classList_add, ?classList_setAttribute, ?classList_add;
      rewrite classList_unmarkContent, classList_unmarkButton; tauto. }
  split.
  - intros (e' & [= <-] & Hin). eexists. split; [reflexivity|].
    apply (proj1 (Hiff _ eq_refl)), Hin.
  - intros (e0 & [= <-] & Hin). eexists. split; [reflexivity|].
    apply (proj2 (Hiff _ eq_refl)), Hin.
Qed.

(** After a switch exactly the two nodes passed to it are marked. *)
Lemma switched_exclusive tb tc (w w' : World) :
  is_Some (document w !! tb) ->
  is_Some (document w !! tc) ->
  document w' = switched tb tc (document w) ->
  exclusively_active tb tc w'.
Proof.
  intros [eb Heb] [ec Hec] Hdoc.
  unfold exclusively_active, hasClass, getAttribute.
  rewrite Hdoc. repeat split.
  - rewrite lookup_switched, Heb. eexists. split; [reflexivity|].
    rewrite (decide_True (P := tb = tb)) by reflexivity.
    destruct (decide (tc = tb)); unfold compose, id;
      rewrite ?classList_add, ?classList_setAttribute, ?classList_add; auto.
  - rewrite lookup_switched, Hec. eexists. split; [reflexivity|].
    rewrite decide_True by reflexivity.
    rewrite classList_add. auto.
  - rewrite lookup_switched, Heb. cbn [fmap option_fmap option_map mbind option_bind].
    rewrite (decide_True (P := tb = tb)) by reflexivity.
    destruct (decide (tc = tb)); unfold compose, id;
      rewrite ?attributes_classAdd; apply attributes_setAttribute.
  - intros node Hkind (e' & He' & Hact).
    rewrite lookup_switched in He'.
    destruct (decide (node = tb)) as [|Hnb]; [left; assumption|].
    destruct (decide (node = tc)) as [|Hnc]; [right; assumption|].
    exfalso.
    rewrite (decide_False (P := tc = node)) in He' by congruence.
    rewrite (decide_False (P := tb = node)) in He' by congruence.
    destruct (document w !! node) as [e|] eqn:He; [|discriminate].
    injection He' as <-. unfold id in Hact.
    apply classList_unmarkContent in Hact as [Hact Hnocontent].
    apply classList_unmarkButton in Hact as [Hact Hnobutton].
    assert (Hkind0 : js "tab-button" ∈ classList e \/
                     js "tab-content" ∈ classList (unmarkButton e)).
    { destruct Hkind as [(e1 & He1 & Hin)|(e1 & He1 & Hin)];
        rewrite lookup_switched, He in He1;
        rewrite (decide_False (P := tc = node)) in He1 by congruence;
        rewrite (decide_False (P := tb = node)) in He1 by congruence;
        injection He1 as <-; unfold id in Hin.
      - left. apply classList_unmarkContent in Hin as [Hin _].
        apply classList_unmarkButton in Hin as [Hin _]. exact Hin.
      - right. apply classList_unmarkContent in Hin as [Hin _]. exact Hin. }
    destruct Hkind0 as [Hin|Hin].
    + exact (Hnobutton eq_refl Hin).
    + exact (Hnocontent eq_refl Hin).
  - intros node (e' & He' & Hbtn) Hnb.
    rewrite lookup_switched in He' |- *.
    destruct (document w !! node) as [e|] eqn:He; [|discriminate].
    injection He' as <-.
    cbn [fmap option_fmap option_map mbind option_bind].
    rewrite (decide_False (P := tb = node)) in Hbtn |- * by congruence.
    unfold id in Hbtn |- *.
    assert (Hin : js "tab-button" ∈ classList e).
    { destruct (decide (tc = node));
        rewrite ?classList_add in Hbtn;
        [destruct Hbtn as [Hbtn|Hbtn]; [|discriminate]|];
        apply classList_unmarkContent in Hbtn as [Hbtn _];
        apply classList_unmarkButton in Hbtn as [Hbtn _]; exact Hbtn. }
    assert (Hattr : attributes (unmarkContent (unmarkButton e))
                      !! js "aria-selected" = Some (js "false")).
    { unfold unmarkContent, unmarkButton, contains.
      rewrite (bool_decide_eq_true_2 _ Hin).
      case_bool_decide; simpl; apply lookup_insert_eq. }
    destruct (decide (tc = node));
      rewrite ?attributes_classAdd; exact Hattr.
Qed.

(** [switchTab] on two elements of the page ends normally in the document
    [switched]. *)
Lemma switchTab_switched (tb tc : nat) w :
  is_Some (document w !! tb) ->
  is_Some (document w !! tc) ->
  exists w',
    switchTab (Some tb) (Some tc) w = (Normal tt, w') /\
    document w' = switched tb tc (document w).
Proof.
  intros Htb Htc. unfold switchTab.
  erewrite bind_normal by reflexivity.
  destruct (forEach_select (js "tab-button")
              (mutate (SetAttribute (js "aria-selected") (js "false"))
                 ∘ mutate (ClassRemove (js "active")))
              (fun btn =>
                 write (Some btn) (ClassRemove (js "active")) ;;
                 write (Some btn)
                   (SetAttribute (js "aria-selected") (js "false")))
              ) with (d := document w) (pre := @nil Element) (w := w)
    as (w1 & Hloop1 & Hdoc1); [|reflexivity|].
  { intros n w0 Hn. eexists. split.
    - erewrite bind_normal by (apply write_ok; exact Hn).
      apply write_ok; still_present.
    - simpl. apply list_alter_alter_eq. }
  erewrite bind_normal by exact Hloop1.
  erewrite bind_normal by reflexivity.
  destruct (forEach_select (js "tab-content")
              (mutate (ClassRemove (js "active")))
              (fun content => write (Some content) (ClassRemove (js "active")))
              ) with (d := document w1) (pre := @nil Element) (w := w1)
    as (w2 & Hloop2 & Hdoc2); [|reflexivity|].
  { intros n w0 Hn. eexists. split; [apply write_ok; exact Hn|reflexivity]. }
  erewrite bind_normal by exact Hloop2.
  simpl in Hdoc1, Hdoc2.
  assert (Hlen : length (document w2) = length (document w)).
  { rewrite Hdoc2, Hdoc1, !length_fmap. reflexivity. }
  assert (Htb2 : is_Some (document w2 !! tb)).
  { apply lookup_lt_is_Some. rewrite Hlen. apply lookup_lt_is_Some, Htb. }
  assert (Htc2 : is_Some (document w2 !! tc)).
  { apply lookup_lt_is_Some. rewrite Hlen. apply lookup_lt_is_Some, Htc. }
  erewrite bind_normal by (apply write_ok; exact Htb2).
  erewrite bind_normal
    by (apply write_ok; still_present).
  rewrite write_ok
    by still_present.
  eexists. split; [reflexivity|].
  simpl. rewrite Hdoc2, Hdoc1. reflexivity.
Qed.

Lemma length_switched tb tc d : length (switched tb tc d) = length d.
Proof. unfold switched. rewrite !length_alter, !length_fmap. reflexivity. Qed.

Lemma tabs_present_length h w w' :
  length (document w') = length (document w) ->
  tabs_present h w -> tabs_present h w'.
Proof.
  intros Hlen Hp t. destruct (Hp t) as [Hb Hc].
  unfold deref in *.
  destruct (tabButton h t) as [tb|], (tabContent h t) as [tc|];
    simpl in *; try (destruct Hb as [? [=]]); try (destruct Hc as [? [=]]).
  split; apply lookup_lt_is_Some; rewrite Hlen; apply lookup_lt_is_Some;
    eauto.
Qed.

Lemma onTabClick_switched h t w :
  tabs_present h w ->
  exists w' tb tc,
    tabButton h t = Some tb /\
    tabContent h t = Some tc /\
    is_Some (document w !! tb) /\
    is_Some (document w !! tc) /\
    onTabClick h t w = (Normal tt, w') /\
    document w' = switched tb tc (document w).
Proof.
  intros Hp. destruct (Hp t) as [Hb Hc]. unfold deref, onTabClick in *.
  destruct (tabButton h t) as [tb|]; [|destruct Hb as [? [=]]].
  destruct (tabContent h t) as [tc|]; [|destruct Hc as [? [=]]].
  simpl in Hb, Hc.
  destruct (switchTab_switched tb tc w Hb Hc) as (w' & Hrun & Hdoc).
  exists w', tb, tc. auto 10.
Qed.

(** Any number of clicks leaves the elements and their classes other than
    "active" in place. *)
Lemma clickTabs_frame h clicks w :
  tabs_present h w ->
  exists w1,
    clickTabs h clicks w = (Normal tt, w1) /\
    length (document w1) = length (document w) /\
    forall (c : jsstring) node,
      c <> js "active" -> hasClass c node w1 <-> hasClass c node w.
Proof.
  revert w. induction clicks as [|t clicks IH]; intros w Hp.
  - exists w. split; [reflexivity|]. split; [reflexivity|]. reflexivity.
  - destruct (onTabClick_switched h t w Hp)
      as (w0 & tb & tc & _ & _ & _ & _ & Hrun & Hdoc).
    assert (Hlen0 : length (document w0) = length (document w))
      by (rewrite Hdoc; apply length_switched).
    destruct (IH w0 (tabs_present_length h w w0 Hlen0 Hp))
      as (w1 & Hrest & Hlen1 & Hframe).
    exists w1. split; [|split].
    + unfold clickTabs in *. erewrite forEach_cons by exact Hrun. exact Hrest.
    + congruence.
    + intros c node Hc. rewrite (Hframe c node Hc).
      apply (switched_class_frame tb tc); assumption.
Qed.

(** C8: on a page whose two tab buttons carry the class "tab-button" and
    whose two panels carry "tab-content", the four being different
    elements, after any sequence of tab clicks: the button of the tab
    clicked last and the panel of that same mode carry the class "active"
    and that button is the selected one; the button and the panel of the
    other mode do not carry "active" and that button has [aria-selected]
    "false"; more generally no other element of class "tab-button" or
    "tab-content" carries "active", and every other element of class
    "tab-button" has [aria-selected] "false".  The clicks change no class
    other than "active". *)
Theorem tab_switch_exclusive (h : Handles) w (clicks : list Tab)
    (last : Tab) (tabA tabB panelA panelB : nat) :
  tabCompliance h = Some tabA ->
  tabClassifier h = Some tabB ->
  contentCompliance h = Some panelA ->
  contentClassifier h = Some panelB ->
  NoDup [tabA; tabB; panelA; panelB] ->
  hasClass (js "tab-button") tabA w ->
  hasClass (js "tab-button") tabB w ->
  hasClass (js "tab-content") panelA w ->
  hasClass (js "tab-content") panelB w ->
  exists w' tb tc ob oc,
    clickTabs h (clicks ++ [last]) w = (Normal tt, w') /\
    (tb, tc, ob, oc)
      = match last with
        | Compliance => (tabA, panelA, tabB, panelB)
        | Classifier => (tabB, panelB, tabA, panelA)
        end /\
    hasClass (js "active") tb w' /\
    hasClass (js "active") tc w' /\
    getAttribute (js "aria-selected") tb w' = Some (js "true") /\
    ~ hasClass (js "active") ob w' /\
    ~ hasClass (js "active") oc w' /\
    getAttribute (js "aria-selected") ob w' = Some (js "false") /\
    (forall node,
       hasClass (js "tab-button") node w' \/
       hasClass (js "tab-content") node w' ->
       hasClass (js "active") node w' ->
       node = tb \/ node = tc) /\
    (forall node,
       hasClass (js "tab-button") node w' ->
       node <> tb ->
       getAttribute (js "aria-selected") node w' = Some (js "false")) /\
    (forall (c : jsstring) node,
       c <> js "active" -> hasClass c node w' <-> hasClass c node w).
Proof.
  intros HtA HtB HpA HpB Hnd HcA HcB HcpA HcpB.
  assert (Hdiff : tabA <> tabB /\ tabA <> panelB /\ tabB <> panelA /\
                  panelA <> panelB).
  { rewrite !NoDup_cons, !not_elem_of_cons in Hnd. tauto. }
  destruct Hdiff as (Hab & Hapb & Hbpa & Hpapb).
  assert (Hp : tabs_present h w).
  { intros t. unfold tabButton, tabContent, deref, hasClass in *.
    destruct t; rewrite ?HtA, ?HtB, ?HpA, ?HpB; simpl; split;
      match goal with
      | H : exists e, document w !! ?n = Some e /\ _ |- is_Some (document w !! ?n) =>
          destruct H as (e & -> & _); eauto
      end. }
  destruct (clickTabs_frame h clicks w Hp) as (w1 & Hrun1 & Hlen1 & Hframe1).
  pose proof (tabs_present_length h w w1 Hlen1 Hp) as Hp1.
  destruct (onTabClick_switched h last w1 Hp1)
    as (w' & tb & tc & Htb & Htc & Hvb & Hvc & Hrun & Hdoc).
  destruct (switched_exclusive tb tc w1 w' Hvb Hvc Hdoc)
    as (Hactb & Hactc & Hsel & Hexcl & Hothers).
  assert (Hframe : forall (c : jsstring) node,
            c <> js "active" -> hasClass c node w' <-> hasClass c node w).
  { intros c node Hc. rewrite <- (Hframe1 c node Hc).
    apply (switched_class_frame tb tc w1 w'); assumption. }
  assert (Hkind : forall node,
            hasClass (js "tab-button") node w \/
            hasClass (js "tab-content") node w ->
            node <> tb -> node <> tc -> ~ hasClass (js "active") node w').
  { intros node Hk Hnb Hnc Hact.
    destruct (Hexcl node); [|exact Hact|contradiction..].
    destruct Hk as [Hk|Hk]; [left|right]; apply Hframe; [discriminate|exact Hk
                                                        |discriminate|exact Hk]. }
  assert (Hrunall : clickTabs h (clicks ++ [last]) w = (Normal tt, w')).
  { unfold clickTabs in *. erewrite forEach_app by exact Hrun1.
    erewrite forEach_cons by exact Hrun. reflexivity. }
  destruct last; cbn [tabButton tabContent] in Htb, Htc;
    rewrite ?HtA, ?HtB in Htb; rewrite ?HpA, ?HpB in Htc;
    injection Htb as <-; injection Htc as <-.
  - exists w', tabA, panelA, tabB, panelB.
    split; [exact Hrunall|]. split; [reflexivity|].
    split; [exact Hactb|]. split; [exact Hactc|]. split; [exact Hsel|].
    split; [apply Hkind; [left; exact HcB|congruence|congruence]|].
    split; [apply Hkind; [right; exact HcpB|congruence|congruence]|].
    split; [apply Hothers; [apply Hframe; [discriminate|exact HcB]|congruence]|].
    split; [exact Hexcl|]. split; [exact Hothers|exact Hframe].
  - exists w', tabB, panelB, tabA, panelA.
    split; [exact Hrunall|]. split; [reflexivity|].
    split; [exact Hactb|]. split; [exact Hactc|]. split; [exact Hsel|].
    split; [apply Hkind; [left; exact HcA|congruence|congruence]|].
    split; [apply Hkind; [right; exact HcpA|congruence|congruence]|].
    split; [apply Hothers; [apply Hframe; [discriminate|exact HcA]|congruence]|].
    split; [exact Hexcl|]. split; [exact Hothers|exact Hframe].
Qed.


(** ** Runs on the simulated page *)

Lemma sim_preview_respected cfg :
  (0 < preview cfg)%nat -> @preview_respected sim cfg.
Proof.
  intros Hpos f results H. cbn [Papa_parse sim sim_with] in H.
  unfold sim_parse in H.
  destruct (contents f) as [[|c s]|]; [| |discriminate].
  - injection H as <-. cbn [data length]. lia.
  - destruct (splitOn 10 (c :: s)) as [|hd rows].
    + injection H as <-. cbn [data length]. lia.
    + injection H as <-. cbn [data]. rewrite length_fmap.
      destruct (preview cfg) as [|n]; [lia|]. rewrite length_take. lia.
Qed.

(** The stand-in serialiser writes a header record and one record per
    row, separated by a line feed. *)
Lemma sim_unparse_by_rows :
  @unparse_by_rows sim nl
    (fun r => join (js ",") (fst <$> r))
    (fun _ r => join (js ",") (snd <$> r)).
Proof. split; [reflexivity|]. intros r rows _. reflexivity. Qed.

(** On the wired page a click on the classifier tab (node 1) reaches
    [switchTab] through the registered listener. *)
Example wired_click_switches_tab :
  let wired := main (Some (js "key")) (loaded sim_page) in
  let clicked :=
    @dispatchEvent sim 1%nat (js "click") (mkEvent None) wired.2 in
  wired.1 = Normal sim_handles /\
  clicked.1 = Normal tt /\
  (classList <$> document clicked.2)
  = [[js "tab-button"]; [js "tab-button"; js "active"];
     [js "tab-content"]; [js "tab-content"; js "active"];
     []; []; []; []; []; []; []; []; []].
Proof. vm_compute. repeat split. Qed.

(** With the credential present the script wires the simulated page. *)
Example main_wires_sim_page :
  exists w,
    main (Some (js "key")) (loaded sim_page) = (Normal sim_handles, w) /\
    code <$> listeners w
      = [OnTab Compliance; OnTab Classifier; OnCheckCompliance; OnFileChange;
         OnClassifyData] /\
    target <$> listeners w = [0; 1; 6; 8; 11]%nat.
Proof. eexists. vm_compute. repeat split. Qed.

(** C1 (the code departs from the claim): a stream that completes
    normally after the fragments "Hel" and "lo" and a last chunk that
    carries no text.  The concatenation of the fragments is "Hello", yet
    the result surface ends with the rendering of "Helloundefined": line
    77 appends [chunk.text] as it is, and a missing text is appended as
    the word "undefined". *)
Theorem textless_chunk_renders_undefined :
  let E := sim_with (fun _ _ => sim_textless_stream) in
  let run :=
    @streamResponse E (js "Summarise") (Some 7%nat) (Some 6%nat)
      (loaded sim_page) in
  @generateContentStream E model (js "Summarise")
    = Stream [mkChunk (Some (js "Hel")); mkChunk (Some (js "lo")); mkChunk None]
        Completed /\
  omap text [mkChunk (Some (js "Hel")); mkChunk (Some (js "lo")); mkChunk None]
    = [js "Hel"; js "lo"] /\
  run.1 = Normal tt /\
  prop innerHTML (Some 7%nat) run.2
    = Some (@marked_parse E (js "Helloundefined")) /\
  @marked_parse E (js "Helloundefined")
    <> @marked_parse E (concat [js "Hel"; js "lo"]).
Proof.
  cbv zeta. split; [reflexivity|]. split; [reflexivity|].
  split; [vm_compute; reflexivity|]. split; [vm_compute; reflexivity|].
  vm_compute. discriminate.
Qed.

(** C4 (the code departs from the claim): the request is rejected with a
    description that holds markup characters.  What line 82 assigns to the
    result surface's [innerHTML] is the description spliced into the
    wrapper without escaping, so that the browser parses the part from
    "<!DOCTYPE" on as markup instead of showing it; one request was
    issued. *)
Theorem unescaped_message_is_markup :
  let E := sim_with (fun _ _ => sim_markup_failure) in
  let run :=
    @streamResponse E (js "Summarise") (Some 7%nat) (Some 6%nat)
      (loaded sim_page) in
  @generateContentStream E model (js "Summarise")
    = Rejected (mkError sim_markup_message) /\
  run.1 = Normal tt /\
  prop innerHTML (Some 7%nat) run.2
    = Some (js "<div class=" ++ dq ++ js "error" ++ dq ++
            js ">An error occurred: Unexpected token '<', " ++ dq ++
            js "<!DOCTYPE " ++ dq ++ js "... is not valid JSON</div>") /\
  substring_of (js "<!DOCTYPE")
    (default [] (prop innerHTML (Some 7%nat) run.2)) /\
  requests (trace run.2) = [(model, js "Summarise")].
Proof.
  cbv zeta. split; [reflexivity|].
  split; [vm_compute; reflexivity|]. split; [vm_compute; reflexivity|].
  split; [|vm_compute; reflexivity].
  exists (js "<div class=" ++ dq ++ js "error" ++ dq ++
          js ">An error occurred: Unexpected token '<', " ++ dq),
         (js " " ++ dq ++ js "... is not valid JSON</div>").
  vm_compute. reflexivity.
Qed.

(** Fragments "Hel", "lo" and normal completion: the surface shows the
    rendering of "Hello". *)
Lemma stream_final_render_witness :
  exists w',
    @streamResponse sim (js "Summarise") (Some 7%nat) (Some 6%nat)
      (loaded sim_page) = (Normal tt, w') /\
    prop innerHTML (Some 7%nat) w' = Some (@marked_parse sim (js "Hello")).
Proof.
  destruct (@stream_final_render sim (js "Summarise") 7%nat 6%nat
              (loaded sim_page)
              [mkChunk (Some (js "Hel")); mkChunk (Some (js "lo"))])
    as (w' & Hrun & Hfinal & _).
  - vm_compute. eauto.
  - vm_compute. eauto.
  - vm_compute. reflexivity.
  - left. discriminate.
  - exists w'. split; [exact Hrun|exact Hfinal].
Defined.

(** A failure before any fragment: the control ends enabled. *)
Lemma button_reenabled_last_witness :
  exists w',
    @streamResponse sim [] (Some 7%nat) (Some 6%nat) (loaded sim_page)
      = (Normal tt, w') /\
    last (trace w') = Some (DomWrite 6%nat (SetDisabled false)) /\
    prop disabled (Some 6%nat) w' = Some false.
Proof.
  apply (@button_reenabled_last sim [] 7%nat 6%nat (loaded sim_page)).
  - vm_compute. eauto.
  - vm_compute. eauto.
Defined.

(** The classifier's sample is three spaces: only the message is shown. *)
Lemma blank_input_rejected_witness :
  exists w',
    @onClassifyData sim sim_handles (loaded sim_page) = (Normal tt, w') /\
    prop innerHTML (Some 12%nat) w' = Some (validationError Classifier) /\
    trace w' = [DomWrite 12%nat (SetInnerHTML (validationError Classifier))] /\
    requests (trace w') = [].
Proof.
  apply (@blank_input_rejected sim sim_handles Classifier (loaded sim_page)
           (js "{}") (js "   ") 12%nat).
  - reflexivity.
  - reflexivity.
  - reflexivity.
  - vm_compute. eauto.
  - right. repeat constructor.
Defined.

(** A rejected request: the wrapper around the message of the failure is
    assigned. *)
Lemma failure_markup_no_retry_witness :
  exists w',
    @streamResponse sim [] (Some 7%nat) (Some 6%nat) (loaded sim_page)
      = (Normal tt, w') /\
    prop innerHTML (Some 7%nat) w'
      = Some (errorDiv (js "An error occurred: network down")) /\
    substring_of (js "network down")
      (errorDiv (js "An error occurred: network down")) /\
    requests (trace w') = [(model, [])].
Proof.
  apply (@failure_markup_no_retry sim [] 7%nat 6%nat (loaded sim_page)
           (mkError (js "network down"))).
  - vm_compute. eauto.
  - vm_compute. eauto.
  - left. reflexivity.
Defined.

(** Schema "{}" and query "SELECT 1" on the simulated page. *)
Lemma compliance_prompt_embeds_inputs_witness :
  exists w',
    @onCheckCompliance sim sim_handles (loaded sim_page) = (Normal tt, w') /\
    requests (trace w')
      = [(model, compliance_head ++ js "{}" ++ compliance_mid
                   ++ js "SELECT 1" ++ compliance_tail)].
Proof.
  destruct (@compliance_prompt_embeds_inputs sim sim_handles
              (loaded sim_page) (js "{}") (js "SELECT 1") 7%nat 6%nat)
    as (w' & prompt & Hrun & Hreq & _ & -> & _).
  - reflexivity.
  - reflexivity.
  - reflexivity.
  - reflexivity.
  - vm_compute. eauto.
  - vm_compute. eauto.
  - apply falsy_trim_false. reflexivity.
  - apply falsy_trim_false. reflexivity.
  - exists w'. split; [exact Hrun|exact Hreq].
Defined.

(** Header a,b and six data rows: two field entries, and a sample made of
    the header line and five data lines. *)
Lemma extractor_fields_and_sample_witness :
  exists w' entries,
    @onFileChange sim sim_handles (mkEvent (Some [sim_file]))
      (loaded sim_page) = (Normal tt, w') /\
    schemaObject (js "people.csv") (Some [js "a"; js "b"])
      = JObject [(js "name", JString (js "people.csv"));
                 (js "fields", JArray entries)] /\
    length entries = 2%nat /\
    prop value (Some 10%nat) w'
      = Some (join nl (js <$> ["a,b"; "1,2"; "3,4"; "5,6"; "7,8"; "9,10"]%string)).
Proof.
  edestruct (@extractor_fields_and_sample sim sim_handles (loaded sim_page)
               (mkEvent (Some [sim_file])) sim_file) with (s := 9%nat) (p := 10%nat)
    as (w' & Hrun & _ & _ & Hfields & _ & _ & Hsample).
  - apply sim_preview_respected. cbn [preview]. lia.
  - exact sim_unparse_by_rows.
  - reflexivity.
  - vm_compute. reflexivity.
  - reflexivity.
  - reflexivity.
  - discriminate.
  - vm_compute. eauto.
  - vm_compute. eauto.
  - destruct (Hfields [js "a"; js "b"] eq_refl) as (entries & Hobj & Hlen & _).
    exists w', entries. repeat split; [exact Hrun|exact Hobj|exact Hlen|].
    apply Hsample. discriminate.
Defined.

(** A file the browser can no longer read: the parser's message is
    assigned to the surface, the fields stay. *)
Lemma unreadable_file_keeps_fields_witness :
  exists w',
    @onFileChange sim sim_handles (mkEvent (Some [sim_unreadable_file]))
      (loaded sim_page) = (Normal tt, w') /\
    prop innerHTML (Some 12%nat) w'
      = Some (errorDiv (js "Error parsing file: The file could not be read.")) /\
    prop value (Some 9%nat) w' = Some (js "{}") /\
    prop value (Some 10%nat) w' = Some (js "   ").
Proof.
  destruct (@unreadable_file_keeps_fields sim sim_handles (loaded sim_page)
              (mkEvent (Some [sim_unreadable_file])) sim_unreadable_file
              (mkError (js "The file could not be read.")) 12%nat)
    as (w' & Hrun & Hshown & _ & Hschema & Hsample & _).
  - reflexivity.
  - reflexivity.
  - reflexivity.
  - vm_compute. eauto.
  - exists w'. repeat split; [exact Hrun|exact Hshown|exact Hschema|].
    exact Hsample.
Defined.

(** An empty file: the parser reports its problem inside the results; the
    schema field, which held "{}", and the sample field, which held three
    spaces, are overwritten, and the result surface stays empty. *)
Lemma parse_errors_overwrite_fields_witness :
  exists w',
    @onFileChange sim sim_handles (mkEvent (Some [sim_empty_file]))
      (loaded sim_page) = (Normal tt, w') /\
    prop value (Some 9%nat) (loaded sim_page) = Some (js "{}") /\
    prop value (Some 9%nat) w'
      = Some (js "{" ++ dq ++ js "name" ++ dq ++ js ":" ++ dq ++ js "empty.csv"
              ++ dq ++ js "," ++ dq ++ js "fields" ++ dq ++ js ":[]}") /\
    prop value (Some 10%nat) (loaded sim_page) = Some (js "   ") /\
    prop value (Some 10%nat) w' = Some [] /\
    prop innerHTML (Some 12%nat) w' = Some [].
Proof.
  destruct (@parse_errors_overwrite_fields sim sim_handles (loaded sim_page)
              (mkEvent (Some [sim_empty_file])) sim_empty_file
              (mkParseResults []
                 [mkError (js "Unable to auto-detect delimiting character; defaulted to ','")]
                 (Some []))
              9%nat 10%nat)
    as (w' & Hrun & _ & Hschema & Hsample & Hmarkup).
  - reflexivity.
  - reflexivity.
  - discriminate.
  - reflexivity.
  - reflexivity.
  - discriminate.
  - vm_compute. eauto.
  - vm_compute. eauto.
  - exists w'. split; [exact Hrun|]. split; [reflexivity|].
    split; [exact Hschema|]. split; [reflexivity|]. split; [exact Hsample|].
    rewrite Hmarkup. reflexivity.
Defined.

(** The classifier tab, then the compliance tab: the compliance button
    (node 0) and panel (node 2) are marked, the classifier's (nodes 1 and
    3) are not. *)
Lemma tab_switch_exclusive_witness :
  exists w',
    clickTabs sim_handles [Classifier; Compliance] (loaded sim_page)
      = (Normal tt, w') /\
    hasClass (js "active") 0%nat w' /\
    hasClass (js "active") 2%nat w' /\
    ~ hasClass (js "active") 1%nat w' /\
    ~ hasClass (js "active") 3%nat w' /\
    getAttribute (js "aria-selected") 1%nat w' = Some (js "false").
Proof.
  destruct (tab_switch_exclusive sim_handles (loaded sim_page)
              [Classifier] Compliance 0%nat 1%nat 2%nat 3%nat)
    as (w' & tb & tc & ob & oc & Hrun & [= -> -> -> ->] & Hb & Hc & _ &
        Hob & Hoc & Hsel & _).
  - reflexivity.
  - reflexivity.
  - reflexivity.
  - reflexivity.
  - repeat (apply NoDup_cons_2;
            [rewrite ?not_elem_of_cons; repeat split;
             (discriminate || apply not_elem_of_nil)|]).
    apply NoDup_nil_2.
  - eexists. split; [reflexivity|]. vm_compute. apply list_elem_of_here.
  - eexists. split; [reflexivity|]. vm_compute. apply list_elem_of_here.
  - eexists. split; [reflexivity|]. vm_compute. apply list_elem_of_here.
  - eexists. split; [reflexivity|]. vm_compute. apply list_elem_of_here.
  - exists w'. auto 10.
Defined.

(** * Further properties of the script *)

(** ** Confinement: composing what a computation may do *)

Lemma confined_ret {A} P (a : A) : confined P (mret a).
Proof. intros w. exists []. split; [reflexivity|constructor]. Qed.

Lemma confined_throw {A} P e : confined P (@throw A e).
Proof. intros w. exists []. split; [reflexivity|constructor]. Qed.

Lemma confined_bind {A B} P (m : M A) (k : A -> M B) :
  confined P m -> (forall a, confined P (k a)) -> confined P (m ≫= k).
Proof.
  intros Hm Hk w. destruct (Hm w) as (t1 & Hw1 & Ht1).
  unfold mbind, M_bind, bind.
  destruct (m w) as [[a|e] w1]; simpl in Hw1.
  - destruct (Hk a w1) as (t2 & Hw2 & Ht2).
    exists (t1 ++ t2). split.
    + rewrite Hw2, Hw1, exec_app. reflexivity.
    + apply Forall_app. split; assumption.
  - exists t1. split; assumption.
Qed.

Lemma confined_mono {A} (P Q : Effect -> Prop) (m : M A) :
  (forall ev, P ev -> Q ev) -> confined P m -> confined Q m.
Proof.
  intros HPQ Hm w. destruct (Hm w) as (t & Hw & Ht).
  exists t. split; [exact Hw|]. eapply Forall_impl; eassumption.
Qed.

Lemma confined_emit P ev : P ev -> confined P (emit ev).
Proof.
  intros Hev w. exists [ev]. split; [reflexivity|].
  constructor; [exact Hev|constructor].
Qed.

Lemma confined_read {A} P h (p : Element -> A) : confined P (read h p).
Proof.
  intros w. exists []. split; [|constructor].
  unfold read. destruct (deref h w); reflexivity.
Qed.

Lemma confined_write P h m :
  (forall n, h = Some n -> P (DomWrite n m)) -> confined P (write h m).
Proof.
  intros Hh w. unfold write. destruct h as [n|].
  - destruct (document w !! n).
    + exists [DomWrite n m]. split; [reflexivity|].
      constructor; [apply Hh; reflexivity|constructor].
    + exists []. split; [reflexivity|constructor].
  - exists []. split; [reflexivity|constructor].
Qed.

Lemma confined_querySelectorAll P c : confined P (querySelectorAll c).
Proof. intros w. exists []. split; [reflexivity|constructor]. Qed.

Lemma confined_forEach {A} P (l : list A) (f : A -> M unit) :
  (forall x, confined P (f x)) -> confined P (forEach l f).
Proof.
  intros Hf. induction l as [|x l IH]; cbn [forEach].
  - apply confined_ret.
  - apply confined_bind; [apply Hf|intros _; exact IH].
Qed.

Lemma confined_try_catch_finally {A} P (body : M A) handler cleanup :
  confined P body ->
  (forall e, confined P (handler e)) ->
  confined P cleanup ->
  confined P (try_catch_finally body handler cleanup).
Proof.
  intros Hb Hh Hc w. unfold try_catch_finally.
  destruct (Hb w) as (t1 & Hw1 & Ht1).
  destruct (body w) as [r1 w1]. simpl in Hw1.
  assert (Hmid : exists t2 r2 w2,
            match r1 with
            | Normal a => (Normal a, w1)
            | Throw e => handler e w1
            end = (r2, w2) /\ w2 = exec t2 w /\ Forall P t2).
  { destruct r1 as [a|e].
    - exists t1, (Normal a), w1. auto.
    - destruct (Hh e w1) as (t2 & Hw2 & Ht2).
      destruct (handler e w1) as [r2 w2]. simpl in Hw2.
      exists (t1 ++ t2), r2, w2. split; [reflexivity|]. split.
      + rewrite Hw2, Hw1, exec_app. reflexivity.
      + apply Forall_app. split; assumption. }
  destruct Hmid as (t2 & r2 & w2 & -> & Hw2 & Ht2).
  destruct (Hc w2) as (t3 & Hw3 & Ht3).
  exists (t2 ++ t3). split.
  - rewrite exec_app, <- Hw2, <- Hw3.
    destruct (cleanup w2) as [[[]|e] w3]; reflexivity.
  - apply Forall_app. split; assumption.
Qed.

Lemma confined_detached P (m : M unit) :
  confined P m -> (forall e, P (Uncaught e)) -> confined P (detached m).
Proof.
  intros Hm Hu w. unfold detached.
  destruct (Hm w) as (t & Hw & Ht).
  destruct (m w) as [[[]|e] w1]; simpl in Hw.
  - exists t. split; assumption.
  - exists (t ++ [Uncaught e]). split.
    + simpl. rewrite exec_snoc, <- Hw. reflexivity.
    + apply Forall_app. split; [exact Ht|].
      constructor; [apply Hu|constructor].
Qed.

(** What a log preserves, the page it leads to preserves. *)
Lemma prop_exec_preserved {A} (p : Element -> A) n t w :
  Forall (preserves p n) t ->
  prop p (Some n) (exec t w) = prop p (Some n) w.
Proof.
  revert w. induction t as [|ev t IH]; intros w Ht; [reflexivity|].
  inversion Ht as [|? ? Hev Ht']; subst.
  rewrite exec_cons, IH by exact Ht'.
  destruct ev; simpl in Hev; try reflexivity; [|contradiction].
  unfold prop, deref. simpl.
  destruct (decide (node = n)) as [->|Hne].
  - rewrite list_lookup_alter_eq.
    destruct (document w !! n); simpl; [rewrite Hev by reflexivity|];
      reflexivity.
  - rewrite list_lookup_alter_ne by exact Hne. reflexivity.
Qed.

Lemma requests_exec_none t w :
  Forall (fun ev => forall m c, ev <> ModelRequest m c) t ->
  requests (trace (exec t w)) = requests (trace w).
Proof.
  intros Ht. rewrite trace_exec. unfold requests. rewrite omap_app.
  rewrite <- (app_nil_r (omap _ (trace w))) at 2. f_equal.
  induction Ht as [|ev t Hev _ IH]; [reflexivity|].
  destruct ev; simpl; try exact IH. exfalso. eapply Hev. reflexivity.
Qed.

Lemma listeners_confined {A} P (m : M A) w :
  confined P m -> listeners (m w).2 = listeners w.
Proof.
  intros Hm. destruct (Hm w) as (t & -> & _). apply listeners_exec.
Qed.

Lemma ids_exec t w :
  Forall (fun ev => isBodyWrite ev = false) t ->
  elemId <$> document (exec t w) = elemId <$> document w.
Proof.
  revert w. induction t as [|ev t IH]; intros w Ht; [reflexivity|].
  inversion Ht as [|? ? Hev Ht']; subst.
  rewrite exec_cons, IH by exact Ht'.
  destruct ev; simpl in *; try reflexivity; [|discriminate].
  rewrite (list_fmap_alter elemId (mutate m) id).
  - apply list_alter_id. reflexivity.
  - apply Forall_forall. intros e _. destruct m; reflexivity.
Qed.

(** ** What each function is confined to *)

Section Confinement.
Context {E : Externals}.

Lemma switchTab_confined tb tc : confined tab_effect (switchTab tb tc).
Proof.
  unfold switchTab.
  apply confined_bind; [apply confined_querySelectorAll|intros btns].
  apply confined_bind.
  { apply confined_forEach. intros btn.
    apply confined_bind; [|intros _];
      apply confined_write; intros n _; constructor. }
  intros _.
  apply confined_bind; [apply confined_querySelectorAll|intros contents].
  apply confined_bind.
  { apply confined_forEach. intros c.
    apply confined_write; intros n _; constructor. }
  intros _.
  repeat (apply confined_bind; [|intros _]);
    apply confined_write; intros n _; constructor.
Qed.

Lemma forAwait_confined {S} P chunks fin (s : S) body :
  (forall s c, confined P (body s c)) ->
  confined P (forAwait chunks fin s body).
Proof.
  intros Hbody. revert s.
  induction chunks as [|c chunks IH]; intros s; cbn [forAwait].
  - destruct fin; [apply confined_ret|apply confined_throw].
  - apply confined_bind; [apply Hbody|exact IH].
Qed.

Lemma streamResponse_confined prompt r b :
  confined (stream_effect prompt r b) (streamResponse prompt r b).
Proof.
  unfold streamResponse.
  apply confined_bind;
    [apply confined_write; intros n Hn; apply se_button; exact Hn|intros _].
  apply confined_bind;
    [apply confined_write; intros n Hn; apply se_result; exact Hn|intros _].
  apply confined_try_catch_finally.
  - apply confined_bind.
    { unfold ai_generateContentStream.
      apply confined_bind; [apply confined_emit; constructor|intros _].
      destruct (generateContentStream model prompt);
        [apply confined_throw|apply confined_ret]. }
    intros stream. cbv zeta.
    apply confined_bind;
      [apply confined_write; intros n Hn; apply se_result; exact Hn|intros _].
    apply confined_bind; [|intros _; apply confined_ret].
    apply forAwait_confined. intros s c.
    apply confined_bind; [|intros _; apply confined_ret].
    apply confined_write; intros n Hn; apply se_result; exact Hn.
  - intros e.
    apply confined_bind; [apply confined_emit; constructor|intros _].
    apply confined_write; intros n Hn; apply se_result; exact Hn.
  - apply confined_write; intros n Hn; apply se_button; exact Hn.
Qed.

Lemma stream_effect_action h t prompt ev :
  stream_effect prompt (resultSurface h t) (triggerControl h t) ev ->
  action_effect h t ev.
Proof. intros []; econstructor; eassumption. Qed.

Lemma onAction_confined h t : confined (action_effect h t) (onAction h t).
Proof.
  destruct t; cbn [onAction]; unfold onCheckCompliance, onClassifyData;
    (apply confined_bind; [apply confined_read|intros schema]);
    (apply confined_bind; [apply confined_read|intros second]);
    (destruct (_ || _);
      [apply confined_write; intros n Hn; apply ae_result; exact Hn|]);
    cbv zeta;
    (apply confined_detached; [|intros e; constructor]).
  - apply (confined_mono
             (stream_effect (compliancePrompt schema second)
                (resultSurface h Compliance) (triggerControl h Compliance)));
      [apply stream_effect_action|apply streamResponse_confined].
  - apply (confined_mono
             (stream_effect (classifierPrompt schema second)
                (resultSurface h Classifier) (triggerControl h Classifier)));
      [apply stream_effect_action|apply streamResponse_confined].
Qed.

Lemma onFileChange_confined h event :
  confined (upload_effect h) (onFileChange h event).
Proof.
  unfold onFileChange. destruct (files event ≫= head) as [file|];
    [|apply confined_ret].
  cbv zeta.
  apply confined_bind; [apply confined_emit; constructor|intros _].
  destruct (Papa_parse file _) as [results|e].
  - apply confined_bind; [|intros _].
    + apply confined_write. intros n Hn. apply ue_schema. exact Hn.
    + apply confined_write. intros n Hn. apply ue_sample. exact Hn.
  - apply confined_write. intros n Hn. apply ue_error. exact Hn.
Qed.

(** No listener replaces the body. *)
Lemma runListener_confined l event :
  confined (fun ev => isBodyWrite ev = false) (runListener l event).
Proof.
  unfold runListener. destruct (code l) as [t| | |].
  - eapply confined_mono; [|apply switchTab_confined].
    intros ev []; reflexivity.
  - eapply confined_mono; [|apply (onAction_confined (env l) Compliance)].
    intros ev []; reflexivity.
  - eapply confined_mono; [|apply onFileChange_confined].
    intros ev []; reflexivity.
  - eapply confined_mono; [|apply (onAction_confined (env l) Classifier)].
    intros ev []; reflexivity.
Qed.

Lemma dispatchEvent_confined node type event :
  confined (fun ev => isBodyWrite ev = false) (dispatchEvent node type event).
Proof.
  intros w. unfold dispatchEvent.
  apply (confined_forEach (fun ev => isBodyWrite ev = false)).
  intros l. apply confined_detached; [apply runListener_confined|].
  reflexivity.
Qed.

End Confinement.

(** ** What the functions leave alone *)

Lemma confined_prop {A B} P (m : M A) (p : Element -> B) n w :
  confined P m ->
  (forall ev, P ev -> preserves p n ev) ->
  prop p (Some n) (m w).2 = prop p (Some n) w.
Proof.
  intros Hm HP. destruct (Hm w) as (t & -> & Ht).
  apply prop_exec_preserved. eapply Forall_impl; eassumption.
Qed.

Lemma confined_requests {A} P (m : M A) w :
  confined P m ->
  (forall ev, P ev -> forall md c, ev <> ModelRequest md c) ->
  requests (trace (m w).2) = requests (trace w).
Proof.
  intros Hm HP. destruct (Hm w) as (t & -> & Ht).
  apply requests_exec_none. eapply Forall_impl; eassumption.
Qed.

Lemma contains_classAdd (c a : jsstring) e :
  c <> a -> contains c (mutate (ClassAdd a) e) = contains c e.
Proof.
  intros Hc. unfold contains. apply bool_decide_ext. split.
  - intros H. apply classList_add in H as [H|H]; [exact H|contradiction].
  - intros H. apply classList_add. auto.
Qed.

Lemma contains_classRemove (c a : jsstring) e :
  c <> a -> contains c (mutate (ClassRemove a) e) = contains c e.
Proof.
  intros Hc. unfold contains. apply bool_decide_ext. split.
  - intros H. apply classList_remove in H as [H _]. exact H.
  - intros H. apply classList_remove. auto.
Qed.

Section Frames.
Context {E : Externals}.

(** Switching tabs, with any two references (null included), sends
    nothing to the model service and leaves the listeners, and on every
    element the id, the markup, the value, the disabled flag, every
    attribute other than [aria-selected] and every class other than
    "active", as they were. *)
Theorem switchTab_only_marks (tb tc : handle) w (n : nat) :
  let w' := (switchTab tb tc w).2 in
  requests (trace w') = requests (trace w) /\
  listeners w' = listeners w /\
  prop elemId (Some n) w' = prop elemId (Some n) w /\
  prop innerHTML (Some n) w' = prop innerHTML (Some n) w /\
  prop value (Some n) w' = prop value (Some n) w /\
  prop disabled (Some n) w' = prop disabled (Some n) w /\
  (forall k : jsstring, k <> js "aria-selected" ->
     prop (fun e => attributes e !! k) (Some n) w'
     = prop (fun e => attributes e !! k) (Some n) w) /\
  (forall c : jsstring, c <> js "active" ->
     prop (contains c) (Some n) w' = prop (contains c) (Some n) w).
Proof.
  pose proof (switchTab_confined tb tc) as Hc. cbv zeta.
  split; [|split; [|repeat split]].
  - apply (confined_requests tab_effect); [exact Hc|]. intros ev []; discriminate.
  - apply (listeners_confined tab_effect). exact Hc.
  - apply (confined_prop tab_effect); [exact Hc|]. intros ev []; simpl; auto.
  - apply (confined_prop tab_effect); [exact Hc|]. intros ev []; simpl; auto.
  - apply (confined_prop tab_effect); [exact Hc|]. intros ev []; simpl; auto.
  - apply (confined_prop tab_effect); [exact Hc|]. intros ev []; simpl; auto.
  - intros k Hk. apply (confined_prop tab_effect); [exact Hc|].
    intros ev []; simpl; auto. intros _ e.
    apply lookup_insert_ne. congruence.
  - intros c Hcl. apply (confined_prop tab_effect); [exact Hc|].
    intros ev []; cbn [preserves]; intros _ e;
      [apply contains_classAdd|apply contains_classRemove|reflexivity];
      exact Hcl.
Qed.

(** [streamResponse], with any two references and whatever the service
    answers, writes nothing but the markup of the result element and the
    disabled flag of the button: ids, classes, attributes and values of
    all elements, the markup of every other element and the flag of every
    other element stay, and so do the listeners. *)
Theorem streamResponse_frame prompt (r b : handle) w (n : nat) :
  let w' := (streamResponse prompt r b w).2 in
  listeners w' = listeners w /\
  prop elemId (Some n) w' = prop elemId (Some n) w /\
  prop classList (Some n) w' = prop classList (Some n) w /\
  prop attributes (Some n) w' = prop attributes (Some n) w /\
  prop value (Some n) w' = prop value (Some n) w /\
  (r <> Some n -> prop innerHTML (Some n) w' = prop innerHTML (Some n) w) /\
  (b <> Some n -> prop disabled (Some n) w' = prop disabled (Some n) w).
Proof.
  pose proof (streamResponse_confined prompt r b) as Hc. cbv zeta.
  split; [|repeat split].
  - apply (listeners_confined (stream_effect prompt r b)). exact Hc.
  - apply (confined_prop (stream_effect prompt r b)); [exact Hc|].
    intros ev []; simpl; auto.
  - apply (confined_prop (stream_effect prompt r b)); [exact Hc|].
    intros ev []; simpl; auto.
  - apply (confined_prop (stream_effect prompt r b)); [exact Hc|].
    intros ev []; simpl; auto.
  - apply (confined_prop (stream_effect prompt r b)); [exact Hc|].
    intros ev []; simpl; auto.
  - intros Hr. apply (confined_prop (stream_effect prompt r b)); [exact Hc|].
    intros ev []; simpl; auto; intros ->; congruence.
  - intros Hb. apply (confined_prop (stream_effect prompt r b)); [exact Hc|].
    intros ev []; simpl; auto; intros ->; congruence.
Qed.

(** The file-input listener never contacts the model service, whatever
    the parser answers, and writes nothing but the values of the
    classifier's schema and sample fields and the markup of the
    classifier's result surface. *)
Theorem upload_never_requests (h : Handles) event w (n : nat) :
  let w' := (onFileChange h event w).2 in
  requests (trace w') = requests (trace w) /\
  listeners w' = listeners w /\
  prop elemId (Some n) w' = prop elemId (Some n) w /\
  prop classList (Some n) w' = prop classList (Some n) w /\
  prop attributes (Some n) w' = prop attributes (Some n) w /\
  prop disabled (Some n) w' = prop disabled (Some n) w /\
  (classifierResult h <> Some n ->
     prop innerHTML (Some n) w' = prop innerHTML (Some n) w) /\
  (schemaInputClassifier h <> Some n -> sampleInput h <> Some n ->
     prop value (Some n) w' = prop value (Some n) w).
Proof.
  pose proof (onFileChange_confined h event) as Hc. cbv zeta.
  split; [|split; [|repeat split]].
  - apply (confined_requests (upload_effect h)); [exact Hc|].
    intros ev []; discriminate.
  - apply (listeners_confined (upload_effect h)). exact Hc.
  - apply (confined_prop (upload_effect h)); [exact Hc|].
    intros ev []; simpl; auto.
  - apply (confined_prop (upload_effect h)); [exact Hc|].
    intros ev []; simpl; auto.
  - apply (confined_prop (upload_effect h)); [exact Hc|].
    intros ev []; simpl; auto.
  - apply (confined_prop (upload_effect h)); [exact Hc|].
    intros ev []; simpl; auto.
  - intros Hr. apply (confined_prop (upload_effect h)); [exact Hc|].
    intros ev []; simpl; auto; intros ->; congruence.
  - intros Hs Hp. apply (confined_prop (upload_effect h)); [exact Hc|].
    intros ev []; simpl; auto; intros ->; congruence.
Qed.

(** The two click listeners never write to an input: whatever the inputs
    hold and whatever the service answers, the value, the classes, the
    attributes and the id of every element stay; only the markup of the
    mode's own result surface and the disabled flag of the mode's own
    button can change. *)
Theorem action_keeps_inputs (h : Handles) (t : Tab) w (n : nat) :
  let w' := (onAction h t w).2 in
  listeners w' = listeners w /\
  prop elemId (Some n) w' = prop elemId (Some n) w /\
  prop value (Some n) w' = prop value (Some n) w /\
  prop classList (Some n) w' = prop classList (Some n) w /\
  prop attributes (Some n) w' = prop attributes (Some n) w /\
  (resultSurface h t <> Some n ->
     prop innerHTML (Some n) w' = prop innerHTML (Some n) w) /\
  (triggerControl h t <> Some n ->
     prop disabled (Some n) w' = prop disabled (Some n) w).
Proof.
  pose proof (onAction_confined h t) as Hc. cbv zeta.
  split; [|repeat split].
  - apply (listeners_confined (action_effect h t)). exact Hc.
  - apply (confined_prop (action_effect h t)); [exact Hc|].
    intros ev []; simpl; auto.
  - apply (confined_prop (action_effect h t)); [exact Hc|].
    intros ev []; simpl; auto.
  - apply (confined_prop (action_effect h t)); [exact Hc|].
    intros ev []; simpl; auto.
  - apply (confined_prop (action_effect h t)); [exact Hc|].
    intros ev []; simpl; auto.
  - intros Hr. apply (confined_prop (action_effect h t)); [exact Hc|].
    intros ev []; simpl; auto; intros ->; congruence.
  - intros Hb. apply (confined_prop (action_effect h t)); [exact Hc|].
    intros ev []; simpl; auto; intros ->; congruence.
Qed.

(** Whatever events reach the page, in whatever order, the listeners stay
    as registered (none is added, none removed) and no listener replaces
    the body of the document: the log grows by effects none of which is
    an assignment to [document.body.innerHTML]. *)
Theorem wiring_is_permanent (events : list (nat * jsstring * Event)) w :
  let w' := (deliver events w).2 in
  listeners w' = listeners w /\
  bodyHTML w' = bodyHTML w /\
  exists t,
    trace w' = trace w ++ t /\
    Forall (fun ev => isBodyWrite ev = false) t.
Proof.
  assert (Hc : confined (fun ev => isBodyWrite ev = false) (deliver events)).
  { apply confined_forEach. intros ev. apply dispatchEvent_confined. }
  cbv zeta. destruct (Hc w) as (t & -> & Ht).
  split; [apply listeners_exec|]. split.
  - apply bodyHTML_exec. apply forallb_forall. intros ev Hin.
    rewrite Forall_forall in Ht. rewrite (Ht ev); [reflexivity|].
    apply list_elem_of_In. exact Hin.
  - exists t. split; [apply trace_exec|exact Ht].
Qed.

End Frames.

(** ** Start-up with a credential *)

Lemma find_index_Some P d n :
  find_index P d = Some n -> exists e, d !! n = Some e /\ P e = true.
Proof.
  revert n. induction d as [|e d IH]; intros n; simpl; [discriminate|].
  destruct (P e) eqn:HP.
  - intros [= <-]. eauto.
  - destruct (find_index P d) as [m|]; [|discriminate].
    intros [= <-]. apply IH. reflexivity.
Qed.

(** With a non-empty key the module body is the thirteen lookups followed
    by the five registrations. *)
Lemma main_with_key k w :
  k <> [] ->
  main (Some k) w
  = (register (locate (document w)) (wiring (locate (document w))) ;;
     mret (locate (document w))) w.
Proof.
  intros Hk. destruct k; [contradiction|].
  unfold main, locate. cbn [falsy]. cbv zeta.
  cbn [register wiring fst snd tabCompliance tabClassifier
       checkComplianceBtn fileUpload classifyDataBtn].
  unfold mbind, M_bind, bind, getElementById, mret, M_ret, ret.
  repeat match goal with
         | |- context [addEventListener ?a ?b ?c ?d ?w0] =>
             destruct (addEventListener a b c d w0) as [[[]|?] ?]
         end; reflexivity.
Qed.

(** Registration goes on until the first missing target. *)
Lemma register_prefix h l w i :
  (forall j x, (j < i)%nat -> l !! j = Some x ->
     exists n, x.1.1 = Some n /\ is_Some (document w !! n)) ->
  i = length l \/ (exists x, l !! i = Some x /\ x.1.1 = None) ->
  exists ls,
    register h l w
    = (if decide (i = length l) then Normal tt else Throw TypeError_null,
       mkWorld (document w) (bodyHTML w) (listeners w ++ ls) (trace w)) /\
    describe <$> ls = take i l /\
    Forall (fun x => env x = h) ls.
Proof.
  revert w i. induction l as [|x l IH]; intros w i Hbefore Hat.
  - assert (i = 0)%nat as ->.
    { destruct Hat as [->|(x & Hx & _)]; [reflexivity|discriminate]. }
    exists []. rewrite app_nil_r. destruct w. repeat split. constructor.
  - destruct i as [|i].
    + destruct Hat as [Hlen|(x0 & [= <-] & Hnull)]; [discriminate|].
      exists []. rewrite app_nil_r. split; [|split; [reflexivity|constructor]].
      cbn [register]. unfold mbind, M_bind, bind, addEventListener, deref.
      rewrite Hnull. destruct w. reflexivity.
    + destruct (Hbefore 0%nat x) as (n & Hn & e & He); [lia|reflexivity|].
      cbn [register]. unfold mbind, M_bind, bind, addEventListener, deref.
      rewrite Hn. simpl. rewrite He.
      destruct (IH (mkWorld (document w) (bodyHTML w)
                      (listeners w ++ [mkListener n x.1.2 x.2 h]) (trace w)) i)
        as (ls & Hrun & Hdesc & Henv).
      { intros j y Hj Hy. apply (Hbefore (S j) y); [lia|exact Hy]. }
      { destruct Hat as [Hlen|(y & Hy & Hnull)]; [left|right; eauto].
        simpl in Hlen. lia. }
      exists (mkListener n x.1.2 x.2 h :: ls).
      rewrite Hrun. cbn [document bodyHTML listeners trace].
      split; [|split].
      * rewrite <- app_assoc. simpl.
        destruct (decide (i = length l)), (decide (S i = S (length l)));
          try reflexivity; lia.
      * rewrite fmap_cons, Hdesc. unfold describe.
        cbn [target eventType code]. rewrite <- Hn.
        destruct x as [[? ?] ?]. reflexivity.
      * constructor; [reflexivity|exact Henv].
Qed.

Lemma wiring_located d j x :
  wiring (locate d) !! j = Some x ->
  forall n, x.1.1 = Some n -> is_Some (d !! n).
Proof.
  intros Hj n Hn.
  do 5 (destruct j as [|j]; [injection Hj as <-; simpl in Hn;
          apply find_index_Some in Hn as (e & He & _); eauto|]).
  discriminate.
Qed.

(** With a non-empty key, and the two tab buttons, the two action buttons
    and the file input present, the module body ends normally: it returns
    the thirteen handles, registers the five listeners in order on their
    targets, each closing over those handles, and changes nothing else. *)
Theorem main_wires_page k d (n1 n2 n3 n4 n5 : nat) :
  k <> [] ->
  tabCompliance (locate d) = Some n1 ->
  tabClassifier (locate d) = Some n2 ->
  checkComplianceBtn (locate d) = Some n3 ->
  fileUpload (locate d) = Some n4 ->
  classifyDataBtn (locate d) = Some n5 ->
  main (Some k) (loaded d)
  = (Normal (locate d),
     mkWorld d None
       [mkListener n1 (js "click") (OnTab Compliance) (locate d);
        mkListener n2 (js "click") (OnTab Classifier) (locate d);
        mkListener n3 (js "click") OnCheckCompliance (locate d);
        mkListener n4 (js "change") OnFileChange (locate d);
        mkListener n5 (js "click") OnClassifyData (locate d)]
       []).
Proof.
  intros Hk H1 H2 H3 H4 H5.
  rewrite main_with_key by exact Hk. cbn [loaded document].
  destruct (register_prefix (locate d) (wiring (locate d)) (loaded d) 5)
    as (ls & Hrun & Hdesc & Henv).
  { intros j x _ Hj. 
    assert (exists n, x.1.1 = Some n) as [n Hn].
    { do 5 (destruct j as [|j]; [injection Hj as <-; simpl; eauto|]).
      discriminate. }
    exists n. split; [exact Hn|]. eapply wiring_located; eassumption. }
  { left. reflexivity. }
  erewrite bind_normal by exact Hrun.
  unfold mret, M_ret, ret. f_equal. cbn [loaded document bodyHTML listeners trace app].
  f_equal.
  unfold wiring in Hdesc. rewrite H1, H2, H3, H4, H5 in Hdesc.
  cbn [take] in Hdesc.
  do 5 (destruct ls as [|[? ? ? ?] ls]; [discriminate|]).
  destruct ls; [|discriminate].
  repeat (apply Forall_cons in Henv as [? Henv]).
  unfold describe in Hdesc. simpl in *. 
  injection Hdesc as -> -> -> -> -> -> -> -> -> -> -> -> -> -> ->.
  subst. reflexivity.
Qed.

Lemma present_prefix_spec l :
  (forall j x, (j < present_prefix l)%nat -> l !! j = Some x ->
     is_Some x.1.1) /\
  (present_prefix l = length l \/
   exists x, l !! present_prefix l = Some x /\ x.1.1 = None).
Proof.
  induction l as [|[[[n|] ty] c] l [IH1 IH2]]; cbn [present_prefix].
  - split; [intros j x Hj; lia|left; reflexivity].
  - split.
    + intros [|j] x Hj Hx; [injection Hx as <-; simpl; eauto|].
      apply (IH1 j x); [lia|exact Hx].
    + destruct IH2 as [->|(x & Hx & Hnull)]; [left; reflexivity|right; eauto].
  - split; [intros j x Hj; lia|right]. eexists. split; reflexivity.
Qed.

(** The module body with a non-empty key, for every page: it registers
    the listeners that come before the first missing target, and ends
    normally exactly when no target is missing. *)
Lemma main_run k d :
  k <> [] ->
  exists ls,
    main (Some k) (loaded d)
    = (if decide (present_prefix (wiring (locate d)) = 5%nat)
       then Normal (locate d) else Throw TypeError_null,
       mkWorld d None ls []) /\
    describe <$> ls
    = take (present_prefix (wiring (locate d))) (wiring (locate d)) /\
    Forall (fun x => env x = locate d) ls.
Proof.
  intros Hk. rewrite main_with_key by exact Hk. cbn [loaded document].
  destruct (present_prefix_spec (wiring (locate d))) as [Hbefore Hat].
  destruct (register_prefix (locate d) (wiring (locate d)) (loaded d)
              (present_prefix (wiring (locate d))))
    as (ls & Hrun & Hdesc & Henv).
  { intros j x Hj Hx. destruct (Hbefore j x Hj Hx) as [n Hn].
    exists n. split; [exact Hn|]. eapply wiring_located; eassumption. }
  { exact Hat. }
  exists ls. split; [|split; assumption].
  change (length (wiring (locate d))) with 5%nat in Hrun.
  destruct (decide (present_prefix (wiring (locate d)) = 5%nat)).
  - erewrite bind_normal by exact Hrun. reflexivity.
  - erewrite bind_throw by exact Hrun. reflexivity.
Qed.

(** The module body stops at the first of its five targets that the page
    lacks: a TypeError is thrown, the listeners before that target are
    registered, the ones after it are not, and the page is otherwise
    untouched. *)
Theorem main_stops_at_missing_target k d (i : nat) ty c :
  k <> [] ->
  wiring (locate d) !! i = Some (None, ty, c) ->
  (forall j x, (j < i)%nat -> wiring (locate d) !! j = Some x ->
     is_Some x.1.1) ->
  exists ls,
    main (Some k) (loaded d) = (Throw TypeError_null, mkWorld d None ls []) /\
    describe <$> ls = take i (wiring (locate d)) /\
    length ls = i /\
    (i < 5)%nat.
Proof.
  intros Hk Hi Hbefore.
  assert (Hlt : (i < 5)%nat) by (apply lookup_lt_Some in Hi; exact Hi).
  assert (Hp : present_prefix (wiring (locate d)) = i).
  { destruct (present_prefix_spec (wiring (locate d))) as [Hb Hat].
    destruct (lt_eq_lt_dec (present_prefix (wiring (locate d))) i)
      as [[Hlt'|Heq]|Hgt]; [|exact Heq|].
    - destruct Hat as [Hlen|(x & Hx & Hnull)].
      + change (length (wiring (locate d))) with 5%nat in Hlen. lia.
      + destruct (Hbefore _ x Hlt' Hx) as [n Hn]. congruence.
    - destruct (Hb i _ Hgt Hi) as [n Hn]. discriminate. }
  destruct (main_run k d Hk) as (ls & Hrun & Hdesc & _).
  rewrite Hp in Hrun, Hdesc.
  exists ls. split; [|split; [exact Hdesc|split; [|exact Hlt]]].
  - rewrite Hrun. destruct (decide (i = 5%nat)); [lia|reflexivity].
  - apply (f_equal length) in Hdesc.
    rewrite length_fmap, length_take in Hdesc.
    change (length (wiring (locate d))) with 5%nat in Hdesc. lia.
Qed.

Lemma register_bodyHTML h l w : bodyHTML (register h l w).2 = bodyHTML w.
Proof.
  revert w. induction l as [|x l IH]; intros w; [reflexivity|].
  cbn [register]. unfold mbind, M_bind, bind, addEventListener.
  destruct (deref x.1.1 w), x.1.1; try reflexivity.
  rewrite IH. reflexivity.
Qed.

(** The start-up halt happens exactly when the key is undefined or the
    empty string: every non-empty key passes the guard, whatever the
    page. *)
Theorem halts_iff_key_missing (API_KEY : option jsstring) d :
  main API_KEY (loaded d)
  = (Throw (mkError (js "Missing API Key")),
     mkWorld [] (Some (errorDiv (js "Missing API Key!"))) []
       [BodyWrite (errorDiv (js "Missing API Key!"))])
  <-> API_KEY = None \/ API_KEY = Some [].
Proof.
  split.
  - destruct API_KEY as [[|c k]|]; [auto|intros Hrun; exfalso|auto].
    destruct (main_run (c :: k) d) as (ls & Hrun' & _); [discriminate|].
    rewrite Hrun' in Hrun. discriminate.
  - intros [->| ->]; reflexivity.
Qed.

Lemma handle_ids_NoDup : NoDup handle_ids.
Proof. apply (bool_decide_unpack _). vm_compute. reflexivity. Qed.

Lemma main_normal_locate k d h w' :
  main (Some k) (loaded d) = (Normal h, w') -> h = locate d.
Proof.
  intros Hrun. destruct k as [|c k]; [discriminate|].
  destruct (main_run (c :: k) d) as (ls & Hrun' & _); [discriminate|].
  rewrite Hrun' in Hrun.
  destruct (decide (present_prefix (wiring (locate d)) = 5%nat));
    [|discriminate].
  congruence.
Qed.

(** The handles of a wired page are elements carrying the ids they were
    looked up by, so two different handles are never the same element. *)
Theorem main_handles_distinct k d h w' (i j n m : nat) :
  main (Some k) (loaded d) = (Normal h, w') ->
  i <> j ->
  all_handles h !! i = Some (Some n) ->
  all_handles h !! j = Some (Some m) ->
  n <> m /\
  exists e, d !! n = Some e /\ handle_ids !! i = Some (elemId e).
Proof.
  intros Hrun Hij Hi Hj.
  apply main_normal_locate in Hrun as ->.
  change (all_handles (locate d))
    with ((fun s => find_index (fun e => bool_decide (elemId e = s)) d)
            <$> handle_ids) in Hi, Hj.
  rewrite list_lookup_fmap in Hi, Hj.
  destruct (handle_ids !! i) as [s|] eqn:Hsi; [|discriminate].
  destruct (handle_ids !! j) as [s'|] eqn:Hsj; [|discriminate].
  injection Hi as Hi. injection Hj as Hj.
  apply find_index_Some in Hi as (e & He & Hid).
  apply find_index_Some in Hj as (e' & He' & Hid').
  apply bool_decide_eq_true_1 in Hid, Hid'.
  split.
  - intros ->. apply Hij.
    apply (NoDup_lookup handle_ids i j s handle_ids_NoDup Hsi).
    congruence.
  - exists e. split; [exact He|]. rewrite Hid. reflexivity.
Qed.

(** ** Delivery of events on a wired page *)

Lemma filter_unique {A} (P : A -> Prop) `{forall x, Decision (P x)}
    (l : list A) i x :
  l !! i = Some x -> P x ->
  (forall j y, j <> i -> l !! j = Some y -> ~ P y) ->
  filter P l = [x].
Proof.
  revert i. induction l as [|a l IH]; intros i Hi HPx Hothers; [discriminate|].
  destruct i as [|i].
  - injection Hi as ->. rewrite filter_cons_True by exact HPx. f_equal.
    clear IH. induction l as [|b l IH]; [reflexivity|].
    rewrite filter_cons_False by (apply (Hothers 1%nat b); [lia|reflexivity]).
    apply IH. intros [|j] y Hj Hy; [contradiction|].
    apply (Hothers (S (S j)) y); [lia|exact Hy].
  - rewrite filter_cons_False by (apply (Hothers 0%nat a); [lia|reflexivity]).
    apply (IH i Hi HPx). intros j y Hj Hy.
    apply (Hothers (S j) y); [lia|exact Hy].
Qed.

Lemma filter_none {A} (P : A -> Prop) `{forall x, Decision (P x)}
    (l : list A) :
  (forall y, y ∈ l -> ~ P y) -> filter P l = [].
Proof.
  induction l as [|a l IH]; intros Hno; [reflexivity|].
  rewrite filter_cons_False by (apply Hno; left).
  apply IH. intros y Hy. apply Hno. right. exact Hy.
Qed.

Lemma find_index_inj d (s s' : jsstring) n :
  find_index (fun e => bool_decide (elemId e = s)) d = Some n ->
  find_index (fun e => bool_decide (elemId e = s')) d = Some n ->
  s = s'.
Proof.
  intros Hs Hs'.
  apply find_index_Some in Hs as (e & He & Hid).
  apply find_index_Some in Hs' as (e' & He' & Hid').
  apply bool_decide_eq_true_1 in Hid, Hid'. congruence.
Qed.

(** The five targets are five different elements. *)
Lemma wiring_targets_distinct d i j x y n :
  i <> j ->
  wiring (locate d) !! i = Some x ->
  wiring (locate d) !! j = Some y ->
  x.1.1 = Some n -> y.1.1 <> Some n.
Proof.
  intros Hij Hi Hj Hx Hy.
  destruct i as [|[|[|[|[|i]]]]]; try discriminate;
    destruct j as [|[|[|[|[|j]]]]]; try discriminate; try contradiction;
    injection Hi as <-; injection Hj as <-; cbn [fst snd locate] in Hx, Hy;
    pose proof (find_index_inj _ _ _ _ Hx Hy) as Heq; discriminate.
Qed.

Section Dispatch.
Context {E : Externals}.

Lemma detached_then_ret (m : M unit) w :
  (detached m ;; mret tt) w = detached m w.
Proof.
  unfold mbind, M_bind, bind, detached.
  destruct (m w) as [[[]|e] w']; reflexivity.
Qed.

Lemma wired_listeners k d h w1 :
  main (Some k) (loaded d) = (Normal h, w1) ->
  h = locate d /\
  describe <$> listeners w1 = wiring h /\
  Forall (fun x => env x = h) (listeners w1).
Proof.
  intros Hrun. pose proof (main_normal_locate _ _ _ _ Hrun) as ->.
  destruct k as [|c0 k]; [discriminate|].
  destruct (main_run (c0 :: k) d) as (ls & Hrun' & Hdesc & Henv);
    [discriminate|].
  rewrite Hrun' in Hrun.
  destruct (decide (present_prefix (wiring (locate d)) = 5%nat)) as [Hp|];
    [|discriminate].
  injection Hrun as <-. cbn [listeners].
  rewrite Hp in Hdesc. split; [reflexivity|]. split; assumption.
Qed.

(** On a page wired by the module body, and however the page has changed
    since as long as the listeners are the registered ones, an event of
    the registered type on one of the five targets runs the listener
    registered there, and only that one; an event on any other element,
    or of another type, runs nothing. *)
Theorem dispatch_runs_registered_listener k d h w1 w event :
  main (Some k) (loaded d) = (Normal h, w1) ->
  listeners w = listeners w1 ->
  (forall i n ty c,
     wiring h !! i = Some (Some n, ty, c) ->
     dispatchEvent n ty event w
     = detached (runListener (mkListener n ty c h) event) w) /\
  (forall node type,
     (forall c, (Some node, type, c) ∉ wiring h) ->
     dispatchEvent node type event w = (Normal tt, w)).
Proof.
  intros Hrun Hls.
  destruct (wired_listeners k d h w1 Hrun) as (-> & Hdesc & Henv).
  split.
  - intros i n ty c Hi.
    assert (Hl : exists l, listeners w1 !! i = Some l /\ describe l = (Some n, ty, c)).
    { rewrite <- Hdesc, list_lookup_fmap in Hi.
      destruct (listeners w1 !! i) as [l|]; [|discriminate].
      simpl in Hi. exists l. split; [reflexivity|congruence]. }
    destruct Hl as (l & Hli & Hl).
    assert (l = mkListener n ty c (locate d)) as ->.
    { rewrite Forall_forall in Henv.
      pose proof (Henv l (list_elem_of_lookup_2 _ _ _ Hli)) as Hel.
      destruct l. unfold describe in Hl. simpl in *. congruence. }
    unfold dispatchEvent. rewrite Hls.
    rewrite (filter_unique _ (listeners w1) i _ Hli).
    + cbn [forEach]. apply detached_then_ret.
    + split; reflexivity.
    + intros j y Hj Hy [Ht Hty].
      assert (Hwj : wiring (locate d) !! j = Some (describe y))
        by (rewrite <- Hdesc, list_lookup_fmap, Hy; reflexivity).
      refine (wiring_targets_distinct d i j _ _ n _ Hi Hwj eq_refl _);
        [congruence|].
      unfold describe. simpl. rewrite Ht. reflexivity.
  - intros node type Hno. unfold dispatchEvent. rewrite Hls.
    rewrite filter_none; [reflexivity|].
    intros y Hy [Ht Hty]. apply (Hno (code y)).
    rewrite <- Hdesc. apply list_elem_of_fmap. exists y.
    split; [|exact Hy]. unfold describe. rewrite Ht, Hty. reflexivity.
Qed.

End Dispatch.

(** ** More on the streaming renderer and the click listeners *)

Section Calls.
Context {E : Externals}.

(** What lies between the request and the final re-enabling. *)
Lemma renders_between r acc ts :
  Forall (fun ev => exists html, ev = DomWrite r (SetInnerHTML html))
    (renders r acc ts).
Proof.
  unfold renders. apply Forall_fmap, Forall_forall. intros n _. simpl. eauto.
Qed.

(** While a call of [streamResponse] is under way its button is disabled:
    the call starts by disabling the button and showing the loading
    indicator, only then contacts the service, once, and whatever the
    service answers nothing writes the flag again before the last step;
    in every state in between the button reads disabled. *)
Theorem button_disabled_during_call prompt (r b : nat) w :
  is_Some (document w !! r) ->
  is_Some (document w !! b) ->
  exists w' mid,
    streamResponse prompt (Some r) (Some b) w = (Normal tt, w') /\
    trace w'
      = trace w ++
        [DomWrite b (SetDisabled true);
         DomWrite r (SetInnerHTML loadingDiv);
         ModelRequest model prompt] ++
        mid ++ [DomWrite b (SetDisabled false)] /\
    requests mid = [] /\
    disabledWrites mid = [] /\
    forall t1 t2, mid = t1 ++ t2 ->
      prop disabled (Some b)
        (exec ([DomWrite b (SetDisabled true);
                DomWrite r (SetInnerHTML loadingDiv);
                ModelRequest model prompt] ++ t1) w)
      = Some true.
Proof.
  intros Hr Hb.
  set (between := fun ev : Effect =>
         (exists e, ev = ConsoleError e) \/
         (exists html, ev = DomWrite r (SetInnerHTML html))).
  set (mid := match generateContentStream model prompt with
              | Rejected e => failure_effects r e
              | Stream chunks fin =>
                  DomWrite r (SetInnerHTML []) :: renders r [] (appended <$> chunks) ++
                  match fin with
                  | Completed => []
                  | Failed e => failure_effects r e
                  end
              end).
  assert (Hmid : Forall between mid).
  { assert (Hfail : forall e, Forall between (failure_effects r e)).
    { intros e. unfold failure_effects.
      constructor; [left; eauto|constructor; [right; eauto|constructor]]. }
    subst mid. destruct (generateContentStream model prompt) as [e|chunks fin].
    - apply Hfail.
    - constructor; [right; eauto|]. apply Forall_app. split.
      + eapply Forall_impl; [apply renders_between|].
        intros ev Hev. right. exact Hev.
      + destruct fin; [constructor|apply Hfail]. }
  exists (exec (stream_effects prompt r b (generateContentStream model prompt)) w),
    mid.
  split; [apply streamResponse_exec; assumption|].
  split; [rewrite trace_exec; reflexivity|].
  split; [|split].
  - unfold requests. induction Hmid as [|ev t [[e ->]|[html ->]] _ IH];
      [reflexivity|exact IH|exact IH].
  - unfold disabledWrites. induction Hmid as [|ev t [[e ->]|[html ->]] _ IH];
      [reflexivity|exact IH|exact IH].
  - intros t1 t2 Hsplit. rewrite exec_app.
    rewrite prop_exec_preserved.
    + rewrite !exec_cons, exec_nil.
      rewrite prop_perform_other by (discriminate || reflexivity).
      rewrite prop_perform_frame by reflexivity.
      rewrite prop_perform_hit by exact Hb.
      destruct Hb as [eb ->]. reflexivity.
    + rewrite Hsplit in Hmid. apply Forall_app in Hmid as [Ht1 _].
      eapply Forall_impl; [exact Ht1|].
      intros ev [[e ->]|[html ->]]; simpl; auto.
Qed.

(** A failure, and only a failure, is written to the console, once.  A
    rejected request replaces the loading indicator by the error message
    directly; a stream that fails after some fragments has rendered each
    of them before the error message replaces the output. *)
Theorem failure_is_logged prompt (r b : nat) w :
  is_Some (document w !! r) ->
  is_Some (document w !! b) ->
  exists w',
    streamResponse prompt (Some r) (Some b) w = (Normal tt, w') /\
    consoleErrors (trace w')
      = consoleErrors (trace w) ++
        match generateContentStream model prompt with
        | Rejected e => [e]
        | Stream _ (Failed e) => [e]
        | Stream _ Completed => []
        end /\
    (forall e, generateContentStream model prompt = Rejected e ->
       trace w'
       = trace w ++
         [DomWrite b (SetDisabled true);
          DomWrite r (SetInnerHTML loadingDiv);
          ModelRequest model prompt;
          ConsoleError e;
          DomWrite r
            (SetInnerHTML (errorDiv (js "An error occurred: " ++ message e)));
          DomWrite b (SetDisabled false)]) /\
    (forall chunks e,
       generateContentStream model prompt = Stream chunks (Failed e) ->
       trace w'
       = trace w ++
         [DomWrite b (SetDisabled true);
          DomWrite r (SetInnerHTML loadingDiv);
          ModelRequest model prompt;
          DomWrite r (SetInnerHTML [])] ++
         ((fun n =>
             DomWrite r
               (SetInnerHTML
                  (marked_parse (concat (take n (appended <$> chunks))))))
            <$> seq 1 (length chunks)) ++
         [ConsoleError e;
          DomWrite r
            (SetInnerHTML (errorDiv (js "An error occurred: " ++ message e)));
          DomWrite b (SetDisabled false)]).
Proof.
  intros Hr Hb.
  assert (Hnone : forall acc ts, consoleErrors (renders r acc ts) = []).
  { intros acc ts. pose proof (renders_between r acc ts) as Hf.
    unfold consoleErrors. induction Hf as [|ev t [html ->] _ IH];
      [reflexivity|exact IH]. }
  eexists. split; [apply streamResponse_exec; assumption|].
  rewrite trace_exec. split; [|split].
  - unfold consoleErrors at 1. rewrite omap_app. fold consoleErrors. f_equal.
    unfold stream_effects, failure_effects.
    destruct (generateContentStream model prompt) as [e|chunks [|e]];
      [reflexivity| |];
      unfold consoleErrors; cbn [app omap list_omap]; rewrite !omap_app;
      fold consoleErrors; rewrite Hnone; reflexivity.
  - intros e ->. reflexivity.
  - intros chunks e ->. unfold stream_effects, failure_effects, renders.
    rewrite length_fmap. cbn [app]. rewrite <- !app_assoc. reflexivity.
Qed.

(** The click listener of a mode whose inputs are not blank calls
    [streamResponse] with the prompt of the mode. *)
Lemma onAction_calls_stream h t w schema second (r b : nat) :
  prop value (firstInput h t) w = Some schema ->
  prop value (secondInput h t) w = Some second ->
  ~ whitespace_only schema ->
  ~ whitespace_only second ->
  onAction h t w
  = detached (streamResponse (promptOf t schema second)
                (resultSurface h t) (triggerControl h t)) w.
Proof.
  intros Hs Hq Hns Hnq.
  apply prop_Some_deref in Hs as (es & Hes & <-).
  apply prop_Some_deref in Hq as (eq & Heq & <-).
  apply falsy_trim_false in Hns, Hnq.
  destruct t; cbn [onAction firstInput secondInput] in *;
    unfold onCheckCompliance, onClassifyData;
    (erewrite bind_normal by (eapply read_ok; exact Hes));
    (erewrite bind_normal by (eapply read_ok; exact Heq));
    rewrite Hns, Hnq; reflexivity.
Qed.

(** With a schema and a sample that are not blank, the classifier's
    listener sends exactly one request, whose prompt is the classification
    template with the two inputs spliced in unchanged: head, schema,
    middle, sample, tail. *)
Theorem classifier_prompt_embeds_inputs (h : Handles) w schema sample
    (r b : nat) :
  prop value (schemaInputClassifier h) w = Some schema ->
  prop value (sampleInput h) w = Some sample ->
  classifierResult h = Some r ->
  classifyDataBtn h = Some b ->
  is_Some (document w !! r) ->
  is_Some (document w !! b) ->
  ~ whitespace_only schema ->
  ~ whitespace_only sample ->
  exists w' prompt,
    onClassifyData h w = (Normal tt, w') /\
    requests (trace w') = requests (trace w) ++ [(model, prompt)] /\
    prompt
      = classifier_head ++ schema ++ classifier_mid ++ sample ++ classifier_tail /\
    substring_of schema prompt /\
    substring_of sample prompt.
Proof.
  intros Hs Hq Hres Hbtn Hr Hb Hns Hnq.
  eexists _, (classifierPrompt schema sample).
  split; [|split; [|split; [reflexivity|split]]].
  - change (onClassifyData h) with (onAction h Classifier).
    rewrite (onAction_calls_stream h Classifier w schema sample r b)
      by assumption.
    cbn [resultSurface triggerControl promptOf]. rewrite Hres, Hbtn.
    apply detached_normal, streamResponse_exec; assumption.
  - rewrite trace_exec. unfold requests. rewrite omap_app. fold requests.
    rewrite requests_stream_effects. reflexivity.
  - exists classifier_head, (classifier_mid ++ sample ++ classifier_tail).
    reflexivity.
  - exists (classifier_head ++ schema ++ classifier_mid), classifier_tail.
    unfold classifierPrompt. rewrite <- !app_assoc. reflexivity.
Qed.

(** A mode whose result surface was not found on the page: with inputs
    that are not blank the click disables the button and then fails on the
    missing surface before the guarded block is entered, so nothing
    re-enables the button; no request is sent and the failure is only
    reported by the browser. *)
Theorem missing_surface_leaves_button_disabled (h : Handles) (t : Tab) w
    schema second (b : nat) :
  prop value (firstInput h t) w = Some schema ->
  prop value (secondInput h t) w = Some second ->
  ~ whitespace_only schema ->
  ~ whitespace_only second ->
  resultSurface h t = None ->
  triggerControl h t = Some b ->
  is_Some (document w !! b) ->
  exists w',
    onAction h t w = (Normal tt, w') /\
    trace w'
      = trace w ++ [DomWrite b (SetDisabled true); Uncaught TypeError_null] /\
    prop disabled (Some b) w' = Some true /\
    requests (trace w') = requests (trace w).
Proof.
  intros Hs Hq Hns Hnq Hres Hbtn Hb.
  exists (exec [DomWrite b (SetDisabled true); Uncaught TypeError_null] w).
  split; [|split; [|split]].
  - rewrite (onAction_calls_stream h t w schema second 0%nat b) by assumption.
    rewrite Hres, Hbtn. unfold detached, streamResponse.
    erewrite bind_normal by (apply write_ok; exact Hb).
    erewrite bind_throw by reflexivity. reflexivity.
  - rewrite trace_exec. reflexivity.
  - rewrite !exec_cons, exec_nil.
    rewrite prop_perform_other by (discriminate || reflexivity).
    rewrite prop_perform_hit by exact Hb.
    destruct Hb as [eb ->]. reflexivity.
  - rewrite trace_exec. unfold requests. rewrite omap_app, app_nil_r.
    reflexivity.
Qed.

(** From click to call: with inputs that are not blank, the click
    listener of either mode starts one call of [streamResponse] on the
    elements of its own mode.  The call first disables the mode's button,
    then assigns the loading indicator to the mode's result surface, then
    sends one request carrying the prompt of the mode; whatever the
    service answers, nothing that follows is a request, and the last
    thing the call does is to enable that button again. *)
Theorem click_starts_call (h : Handles) (t : Tab) w schema second
    (r b : nat) :
  prop value (firstInput h t) w = Some schema ->
  prop value (secondInput h t) w = Some second ->
  ~ whitespace_only schema ->
  ~ whitespace_only second ->
  resultSurface h t = Some r ->
  triggerControl h t = Some b ->
  is_Some (document w !! r) ->
  is_Some (document w !! b) ->
  exists w' rest,
    onAction h t w = (Normal tt, w') /\
    trace w'
      = trace w ++
        [DomWrite b (SetDisabled true);
         DomWrite r (SetInnerHTML loadingDiv);
         ModelRequest model (promptOf t schema second)] ++ rest /\
    requests rest = [] /\
    last rest = Some (DomWrite b (SetDisabled false)).
Proof.
  intros Hs Hq Hns Hnq Hres Hbtn Hr Hb.
  exists (exec (stream_effects (promptOf t schema second) r b
                  (generateContentStream model (promptOf t schema second))) w).
  eexists. split; [|split; [|split]].
  - rewrite (onAction_calls_stream h t w schema second r b) by assumption.
    rewrite Hres, Hbtn.
    apply detached_normal, streamResponse_exec; assumption.
  - rewrite trace_exec. unfold stream_effects. reflexivity.
  - unfold requests. rewrite omap_app. fold requests.
    unfold failure_effects.
    destruct (generateContentStream model (promptOf t schema second))
      as [e|chunks [|e]]; [reflexivity| |];
      unfold requests; cbn [app omap list_omap]; rewrite ?omap_app;
      fold requests; rewrite requests_renders; reflexivity.
  - apply last_snoc.
Qed.

End Calls.

(** ** Switching tabs again *)

Lemma contains_setAttribute c k v e :
  contains c (mutate (SetAttribute k v) e) = contains c e.
Proof. reflexivity. Qed.

Lemma contains_button_add e :
  contains (js "tab-button") (mutate (ClassAdd (js "active")) e)
  = contains (js "tab-button") e.
Proof. apply contains_classAdd. discriminate. Qed.

Lemma contains_button_remove e :
  contains (js "tab-button") (mutate (ClassRemove (js "active")) e)
  = contains (js "tab-button") e.
Proof. apply contains_classRemove. discriminate. Qed.

Lemma contains_content_add e :
  contains (js "tab-content") (mutate (ClassAdd (js "active")) e)
  = contains (js "tab-content") e.
Proof. apply contains_classAdd. discriminate. Qed.

Lemma contains_content_remove e :
  contains (js "tab-content") (mutate (ClassRemove (js "active")) e)
  = contains (js "tab-content") e.
Proof. apply contains_classRemove. discriminate. Qed.

Lemma remove_setAttribute a k v e :
  mutate (ClassRemove a) (mutate (SetAttribute k v) e)
  = mutate (SetAttribute k v) (mutate (ClassRemove a) e).
Proof. reflexivity. Qed.

Lemma add_setAttribute a k v e :
  mutate (ClassAdd a) (mutate (SetAttribute k v) e)
  = mutate (SetAttribute k v) (mutate (ClassAdd a) e).
Proof. reflexivity. Qed.

Lemma setAttribute_twice k v v' e :
  mutate (SetAttribute k v) (mutate (SetAttribute k v') e)
  = mutate (SetAttribute k v) e.
Proof. destruct e. simpl. f_equal. apply insert_insert_eq. Qed.

Lemma remove_twice a e :
  mutate (ClassRemove a) (mutate (ClassRemove a) e) = mutate (ClassRemove a) e.
Proof.
  destruct e. simpl. f_equal. rewrite list_filter_filter.
  apply list_filter_iff. tauto.
Qed.

Lemma remove_add a e :
  mutate (ClassRemove a) (mutate (ClassAdd a) e) = mutate (ClassRemove a) e.
Proof.
  destruct e as [eid cl at0 ih v dis]. unfold mutate at 2. unfold contains.
  cbn [classList elemId attributes innerHTML value disabled].
  destruct (bool_decide (a ∈ cl)); simpl; f_equal.
  rewrite filter_app, filter_cons_False by tauto. apply app_nil_r.
Qed.

Lemma add_twice a e :
  mutate (ClassAdd a) (mutate (ClassAdd a) e) = mutate (ClassAdd a) e.
Proof.
  destruct e as [eid cl at0 ih v dis]. unfold mutate, contains.
  cbn [classList elemId attributes innerHTML value disabled].
  destruct (bool_decide (a ∈ cl)) eqn:Ha.
  - rewrite Ha. reflexivity.
  - rewrite bool_decide_eq_true_2; [reflexivity|].
    apply elem_of_app. right. apply list_elem_of_here.
Qed.

(** Resolves the class tests of nested switches, then brings the chain of
    mutations that is left to its normal form. *)
Ltac switch_normal Eb Ec :=
  repeat (progress (rewrite ?contains_setAttribute, ?contains_button_add,
                      ?contains_button_remove, ?contains_content_add,
                      ?contains_content_remove, ?Eb, ?Ec; cbv beta iota));
  repeat (progress (rewrite ?remove_setAttribute, ?add_setAttribute,
                      ?setAttribute_twice, ?remove_twice, ?remove_add,
                      ?add_twice)).

(** A second switch makes the first one invisible on an element that the
    second one unmarks or marks itself. *)
Lemma switchedElement_twice ia ic ib icb e :
  (ib = true -> contains (js "tab-button") e = true \/ ia = true) ->
  (icb = true -> contains (js "tab-content") e = true \/ ic = true) ->
  switchedElement ia ic (switchedElement ib icb e) = switchedElement ia ic e.
Proof.
  intros Hb Hc.
  unfold switchedElement, unmarkButton, unmarkContent, compose, id.
  destruct (contains (js "tab-button") e) eqn:Eb,
           (contains (js "tab-content") e) eqn:Ec;
    destruct ia, ic, ib, icb;
    try (destruct (Hb eq_refl); discriminate);
    try (destruct (Hc eq_refl); discriminate);
    switch_normal Eb Ec; reflexivity.
Qed.

Lemma lookup_switched_element tb tc d i :
  switched tb tc d !! i
  = switchedElement (bool_decide (tb = i)) (bool_decide (tc = i)) <$> d !! i.
Proof.
  rewrite lookup_switched. unfold switchedElement.
  destruct (decide (tc = i)) as [Hc|Hc], (decide (tb = i)) as [Hb|Hb];
    try rewrite (bool_decide_eq_true_2 _ Hc);
    try rewrite (bool_decide_eq_false_2 _ Hc);
    try rewrite (bool_decide_eq_true_2 _ Hb);
    try rewrite (bool_decide_eq_false_2 _ Hb);
    reflexivity.
Qed.

Lemma switched_twice (tb tc tb' tc' : nat) d :
  (tb = tb' \/ exists e, d !! tb = Some e /\ js "tab-button" ∈ classList e) ->
  (tc = tc' \/ exists e, d !! tc = Some e /\ js "tab-content" ∈ classList e) ->
  switched tb' tc' (switched tb tc d) = switched tb' tc' d.
Proof.
  intros Hb Hc. apply list_eq. intros i.
  rewrite !lookup_switched_element.
  destruct (d !! i) as [e|] eqn:He; [|reflexivity].
  cbn [fmap option_fmap option_map]. f_equal.
  apply switchedElement_twice.
  - intros Htb%bool_decide_eq_true_1. subst i.
    destruct Hb as [->|(e0 & He0 & Hin)].
    + right. apply bool_decide_eq_true_2. reflexivity.
    + left. unfold contains. apply bool_decide_eq_true_2. congruence.
  - intros Htc%bool_decide_eq_true_1. subst i.
    destruct Hc as [->|(e0 & He0 & Hin)].
    + right. apply bool_decide_eq_true_2. reflexivity.
    + left. unfold contains. apply bool_decide_eq_true_2. congruence.
Qed.

(** Only the last switch counts: when the first tab button carries the
    class "tab-button" and its panel the class "tab-content", switching to
    that tab and then to another pair leaves the same document as
    switching to the other pair directly. *)
Theorem last_switch_wins (tb tc tb' tc' : nat) w :
  is_Some (document w !! tb) ->
  is_Some (document w !! tc) ->
  is_Some (document w !! tb') ->
  is_Some (document w !! tc') ->
  hasClass (js "tab-button") tb w ->
  hasClass (js "tab-content") tc w ->
  exists w1 w2 w2',
    switchTab (Some tb) (Some tc) w = (Normal tt, w1) /\
    switchTab (Some tb') (Some tc') w1 = (Normal tt, w2) /\
    switchTab (Some tb') (Some tc') w = (Normal tt, w2') /\
    document w2 = document w2'.
Proof.
  intros Hb Hc Hb' Hc' Hcb Hcc.
  destruct (switchTab_switched tb tc w Hb Hc) as (w1 & Hrun1 & Hdoc1).
  assert (Hlen : length (document w1) = length (document w))
    by (rewrite Hdoc1; apply length_switched).
  destruct (switchTab_switched tb' tc' w1) as (w2 & Hrun2 & Hdoc2);
    [apply lookup_lt_is_Some; rewrite Hlen; apply lookup_lt_is_Some;
     assumption..|].
  destruct (switchTab_switched tb' tc' w Hb' Hc') as (w2' & Hrun2' & Hdoc2').
  exists w1, w2, w2'. repeat split; try assumption.
  rewrite Hdoc2, Hdoc2', Hdoc1. apply switched_twice; right; assumption.
Qed.

(** Switching to the tab that is already selected changes nothing in the
    document, whatever classes the page has. *)
Theorem switchTab_idempotent (tb tc : nat) w :
  is_Some (document w !! tb) ->
  is_Some (document w !! tc) ->
  exists w1 w2,
    switchTab (Some tb) (Some tc) w = (Normal tt, w1) /\
    switchTab (Some tb) (Some tc) w1 = (Normal tt, w2) /\
    document w2 = document w1.
Proof.
  intros Hb Hc.
  destruct (switchTab_switched tb tc w Hb Hc) as (w1 & Hrun1 & Hdoc1).
  assert (Hlen : length (document w1) = length (document w))
    by (rewrite Hdoc1; apply length_switched).
  destruct (switchTab_switched tb tc w1) as (w2 & Hrun2 & Hdoc2);
    [apply lookup_lt_is_Some; rewrite Hlen; apply lookup_lt_is_Some;
     assumption..|].
  exists w1, w2. repeat split; try assumption.
  rewrite Hdoc2, Hdoc1. apply switched_twice; left; reflexivity.
Qed.

(** The two loops of [switchTab] come first and do not depend on the
    references passed. *)
Lemma switchTab_unmarks tb tc w :
  exists w2,
    document w2 = unmarkContent <$> (unmarkButton <$> document w) /\
    switchTab tb tc w
    = (write tb (ClassAdd (js "active")) ;;
       write tb (SetAttribute (js "aria-selected") (js "true")) ;;
       write tc (ClassAdd (js "active"))) w2.
Proof.
  unfold switchTab.
  erewrite bind_normal by reflexivity.
  destruct (forEach_select (js "tab-button")
              (mutate (SetAttribute (js "aria-selected") (js "false"))
                 ∘ mutate (ClassRemove (js "active")))
              (fun btn =>
                 write (Some btn) (ClassRemove (js "active")) ;;
                 write (Some btn)
                   (SetAttribute (js "aria-selected") (js "false")))
              ) with (d := document w) (pre := @nil Element) (w := w)
    as (w1 & Hloop1 & Hdoc1); [|reflexivity|].
  { intros n w0 Hn. eexists. split.
    - erewrite bind_normal by (apply write_ok; exact Hn).
      apply write_ok; still_present.
    - simpl. apply list_alter_alter_eq. }
  erewrite bind_normal by exact Hloop1.
  erewrite bind_normal by reflexivity.
  destruct (forEach_select (js "tab-content")
              (mutate (ClassRemove (js "active")))
              (fun content => write (Some content) (ClassRemove (js "active")))
              ) with (d := document w1) (pre := @nil Element) (w := w1)
    as (w2 & Hloop2 & Hdoc2); [|reflexivity|].
  { intros n w0 Hn. eexists. split; [apply write_ok; exact Hn|reflexivity]. }
  erewrite bind_normal by exact Hloop2.
  exists w2. split; [|reflexivity].
  simpl in Hdoc1, Hdoc2. rewrite Hdoc2, Hdoc1. reflexivity.
Qed.

(** A page without the panel of a tab: a click on the tab button unmarks
    every tab button and panel, marks and selects the button, and then
    fails on the missing panel; no panel is left marked. *)
Theorem switchTab_missing_panel (tb : nat) w :
  is_Some (document w !! tb) ->
  exists w',
    switchTab (Some tb) None w = (Throw TypeError_null, w') /\
    hasClass (js "active") tb w' /\
    getAttribute (js "aria-selected") tb w' = Some (js "true") /\
    forall n, n <> tb ->
      hasClass (js "tab-button") n w' \/ hasClass (js "tab-content") n w' ->
      ~ hasClass (js "active") n w'.
Proof.
  intros Hb.
  destruct (switchTab_unmarks (Some tb) None w) as (w2 & Hdoc2 & Hrun).
  assert (Hb2 : is_Some (document w2 !! tb)).
  { apply lookup_lt_is_Some. rewrite Hdoc2, !length_fmap.
    apply lookup_lt_is_Some, Hb. }
  assert (Hdoc' :
    document (perform (DomWrite tb (SetAttribute (js "aria-selected") (js "true")))
                (perform (DomWrite tb (ClassAdd (js "active"))) w2))
    = alter (mutate (SetAttribute (js "aria-selected") (js "true"))) tb
        (alter (mutate (ClassAdd (js "active"))) tb (document w2)))
    by reflexivity.
  eexists. split; [|split; [|split]].
  - rewrite Hrun.
    erewrite bind_normal by (apply write_ok; exact Hb2).
    erewrite bind_normal by (apply write_ok; still_present).
    reflexivity.
  - destruct Hb2 as [e2 He2]. unfold hasClass. rewrite Hdoc'.
    rewrite list_lookup_alter_eq, list_lookup_alter_eq, He2.
    eexists. split; [reflexivity|].
    rewrite classList_setAttribute, classList_add. auto.
  - destruct Hb2 as [e2 He2]. unfold getAttribute. rewrite Hdoc'.
    rewrite list_lookup_alter_eq, list_lookup_alter_eq, He2.
    apply attributes_setAttribute.
  - intros n Hn Hkind (e' & He' & Hact).
    unfold hasClass in Hkind. rewrite Hdoc' in He', Hkind.
    rewrite !list_lookup_alter_ne in Hkind by congruence.
    rewrite !list_lookup_alter_ne in He' by congruence.
    rewrite Hdoc2, !list_lookup_fmap in He', Hkind.
    destruct (document w !! n) as [e|]; [|discriminate].
    injection He' as <-.
    apply classList_unmarkContent in Hact as [Hact Hnocontent].
    apply classList_unmarkButton in Hact as [Hact Hnobutton].
    destruct Hkind as [(e1 & [= <-] & Hin)|(e1 & [= <-] & Hin)].
    + apply classList_unmarkContent in Hin as [Hin _].
      apply classList_unmarkButton in Hin as [Hin _].
      exact (Hnobutton eq_refl Hin).
    + apply classList_unmarkContent in Hin as [Hin _].
      exact (Hnocontent eq_refl Hin).
Qed.

(** ** Calls that overlap, and uploads that succeed *)

Lemma prop_perform_determined {A} (p : Element -> A) n ev w w0 :
  determines p n ev ->
  prop p (Some n) w = prop p (Some n) w0 ->
  prop p (Some n) (perform ev w) = prop p (Some n) (perform ev w0).
Proof.
  intros Hev Hw. destruct ev; simpl in Hev; try exact Hw; [|contradiction].
  unfold prop, deref in *. simpl in *.
  destruct (decide (node = n)) as [->|Hne].
  - rewrite !list_lookup_alter_eq.
    destruct (document w !! n) as [e|], (document w0 !! n) as [e0|];
      simpl in *; try discriminate; [|reflexivity].
    f_equal. apply Hev; [reflexivity|congruence].
  - rewrite !list_lookup_alter_ne by exact Hne. exact Hw.
Qed.

Lemma prop_perform_preserved {A} (p : Element -> A) n ev w :
  preserves p n ev -> prop p (Some n) (perform ev w) = prop p (Some n) w.
Proof.
  intros Hev.
  apply (prop_exec_preserved p n [ev] w). constructor; [exact Hev|constructor].
Qed.

(** Merging a log with one that preserves a property does not change
    what the first log does to it. *)
Lemma exec_interleaving {A} (p : Element -> A) n t1 t2 t :
  interleaving t1 t2 t ->
  Forall (determines p n) t1 ->
  Forall (preserves p n) t2 ->
  forall w w0,
    prop p (Some n) w = prop p (Some n) w0 ->
    prop p (Some n) (exec t w) = prop p (Some n) (exec t1 w0).
Proof.
  induction 1 as [|x t1 t2 t _ IH|x t1 t2 t _ IH]; intros H1 H2 w w0 Hw.
  - exact Hw.
  - inversion H1; subst. rewrite !exec_cons.
    apply IH; [assumption..|]. apply prop_perform_determined; assumption.
  - inversion H2; subst. rewrite exec_cons.
    apply IH; [assumption..|]. rewrite prop_perform_preserved; assumption.
Qed.

Lemma interleaving_sym {A} (t1 t2 t : list A) :
  interleaving t1 t2 t -> interleaving t2 t1 t.
Proof. induction 1; constructor; assumption. Qed.

Section Overlap.
Context {E : Externals}.

(** The log of a call, cut out of the page it ends in. *)
Lemma stream_log prompt (r b : handle) w t :
  trace (streamResponse prompt r b w).2 = trace w ++ t ->
  (streamResponse prompt r b w).2 = exec t w /\
  Forall (stream_effect prompt r b) t.
Proof.
  intros Ht. destruct (streamResponse_confined prompt r b w) as (t' & Hw & Hall).
  rewrite Hw, trace_exec in Ht. apply app_inv_head in Ht as <-.
  split; assumption.
Qed.

(** [streamResponse] never reads the page: on any two pages that both
    have the result element and the button, the same call does the same
    things in the same order. *)
Theorem streamResponse_reads_nothing prompt (r b : nat) w w0 :
  is_Some (document w !! r) ->
  is_Some (document w !! b) ->
  is_Some (document w0 !! r) ->
  is_Some (document w0 !! b) ->
  exists t,
    trace (streamResponse prompt (Some r) (Some b) w).2 = trace w ++ t /\
    trace (streamResponse prompt (Some r) (Some b) w0).2 = trace w0 ++ t /\
    (streamResponse prompt (Some r) (Some b) w).1
    = (streamResponse prompt (Some r) (Some b) w0).1.
Proof.
  intros Hr Hb Hr0 Hb0.
  exists (stream_effects prompt r b (generateContentStream model prompt)).
  rewrite (streamResponse_exec prompt r b w Hr Hb).
  rewrite (streamResponse_exec prompt r b w0 Hr0 Hb0).
  cbn [fst snd]. rewrite !trace_exec. repeat split.
Qed.

(** Two calls on disjoint elements do not interfere: however the things
    the two calls do are interleaved, each keeping its own order, the
    result surface and the button of each call end as if that call had
    run alone. *)
Theorem disjoint_calls_do_not_interfere prompt1 prompt2
    (r1 b1 r2 b2 : nat) w t1 t2 t :
  r1 <> r2 -> r1 <> b2 -> b1 <> r2 -> b1 <> b2 ->
  trace (streamResponse prompt1 (Some r1) (Some b1) w).2 = trace w ++ t1 ->
  trace (streamResponse prompt2 (Some r2) (Some b2) w).2 = trace w ++ t2 ->
  interleaving t1 t2 t ->
  let w1 := (streamResponse prompt1 (Some r1) (Some b1) w).2 in
  let w2 := (streamResponse prompt2 (Some r2) (Some b2) w).2 in
  prop innerHTML (Some r1) (exec t w) = prop innerHTML (Some r1) w1 /\
  prop disabled (Some b1) (exec t w) = prop disabled (Some b1) w1 /\
  prop innerHTML (Some r2) (exec t w) = prop innerHTML (Some r2) w2 /\
  prop disabled (Some b2) (exec t w) = prop disabled (Some b2) w2.
Proof.
  intros Hrr Hrb Hbr Hbb Ht1 Ht2 Hmerge. cbv zeta.
  apply stream_log in Ht1 as [-> Hall1].
  apply stream_log in Ht2 as [-> Hall2].
  assert (Hdet : forall {A} (p : Element -> A) prompt r b n tl,
            (forall html e e', p e = p e' ->
               p (mutate (SetInnerHTML html) e)
               = p (mutate (SetInnerHTML html) e')) ->
            (forall v e e', p e = p e' ->
               p (mutate (SetDisabled v) e) = p (mutate (SetDisabled v) e')) ->
            Forall (stream_effect prompt (Some r) (Some b)) tl ->
            Forall (determines p n) tl).
  { intros A p prompt r b n tl Hh Hd Hall.
    eapply Forall_impl; [exact Hall|].
    intros ev [| |n0 html Hn|n0 v Hn]; simpl; auto;
      intros _ e e' He; [apply Hh|apply Hd]; exact He. }
  assert (Hpres : forall {A} (p : Element -> A) prompt r b n tl,
            r <> n -> b <> n ->
            Forall (stream_effect prompt (Some r) (Some b)) tl ->
            Forall (preserves p n) tl).
  { intros A p prompt r b n tl Hr Hb Hall.
    eapply Forall_impl; [exact Hall|].
    intros ev [| |n0 html Hn|n0 v Hn]; simpl; auto; intros ->; congruence. }
  repeat split.
  - apply (exec_interleaving innerHTML r1 t1 t2 t Hmerge);
      [eapply Hdet; [| |exact Hall1]; auto
      |eapply Hpres; [| |exact Hall2]; congruence
      |reflexivity].
  - apply (exec_interleaving disabled b1 t1 t2 t Hmerge);
      [eapply Hdet; [| |exact Hall1]; auto
      |eapply Hpres; [| |exact Hall2]; congruence
      |reflexivity].
  - apply (exec_interleaving innerHTML r2 t2 t1 t (interleaving_sym _ _ _ Hmerge));
      [eapply Hdet; [| |exact Hall2]; auto
      |eapply Hpres; [| |exact Hall1]; congruence
      |reflexivity].
  - apply (exec_interleaving disabled b2 t2 t1 t (interleaving_sym _ _ _ Hmerge));
      [eapply Hdet; [| |exact Hall2]; auto
      |eapply Hpres; [| |exact Hall1]; congruence
      |reflexivity].
Qed.

(** A successful parse writes the two fields and nothing else: no markup
    changes anywhere, so a message shown earlier in the classifier's
    result surface (a parse error, a previous answer) stays on screen. *)
Theorem upload_success_keeps_markup (h : Handles) event file results w
    (n : nat) :
  files event ≫= head = Some file ->
  Papa_parse file (mkParseConfig true 5) = Complete results ->
  let w' := (onFileChange h event w).2 in
  prop innerHTML (Some n) w' = prop innerHTML (Some n) w /\
  (schemaInputClassifier h <> Some n -> sampleInput h <> Some n ->
     prop value (Some n) w' = prop value (Some n) w).
Proof.
  intros Hfile Hparse. cbv zeta.
  assert (Hc : confined
                 (fun ev =>
                    (exists f cfg, ev = ParseRequest f cfg) \/
                    (exists node v, (schemaInputClassifier h = Some node \/
                                     sampleInput h = Some node) /\
                                    ev = DomWrite node (SetValue v)))
                 (onFileChange h event)).
  { unfold onFileChange. rewrite Hfile. cbv zeta.
    apply confined_bind; [apply confined_emit; left; eauto|intros _].
    rewrite Hparse.
    apply confined_bind; [|intros _];
      apply confined_write; intros node Hn; right; eauto 6. }
  split.
  - apply (confined_prop _ _ innerHTML n w Hc).
    intros ev [(f & cfg & ->)|(node & v & _ & ->)]; simpl; auto.
  - intros Hs Hp. apply (confined_prop _ _ value n w Hc).
    intros ev [(f & cfg & ->)|(node & v & Hnode & ->)]; simpl; auto.
    intros ->. destruct Hnode; congruence.
Qed.

End Overlap.

(** ** Runs of the further properties on the simulated page *)

Lemma interleaving_app {A} (t1 t2 : list A) : interleaving t1 t2 (t1 ++ t2).
Proof.
  induction t1 as [|x t1 IH]; simpl; [|constructor; exact IH].
  induction t2 as [|y t2 IH]; constructor; exact IH.
Qed.

Lemma classifier_prompt_embeds_inputs_witness :
  exists w' prompt,
    @onClassifyData sim sim_handles (loaded sim_page_filled) = (Normal tt, w') /\
    requests (trace w') = [(model, prompt)] /\
    prompt
      = classifier_head ++ js "{}" ++ classifier_mid ++ js "a,b"
        ++ classifier_tail.
Proof.
  destruct (@classifier_prompt_embeds_inputs sim sim_handles
              (loaded sim_page_filled) (js "{}") (js "a,b") 12%nat 11%nat)
    as (w' & prompt & Hrun & Hreq & Hprompt & _).
  - reflexivity.
  - reflexivity.
  - reflexivity.
  - reflexivity.
  - vm_compute. eauto.
  - vm_compute. eauto.
  - apply falsy_trim_false. reflexivity.
  - apply falsy_trim_false. reflexivity.
  - exists w', prompt. repeat split; assumption.
Defined.

Lemma main_wires_page_witness :
  main (Some (js "key")) (loaded sim_page)
  = (Normal (locate sim_page),
     mkWorld sim_page None
       [mkListener 0 (js "click") (OnTab Compliance) (locate sim_page);
        mkListener 1 (js "click") (OnTab Classifier) (locate sim_page);
        mkListener 6 (js "click") OnCheckCompliance (locate sim_page);
        mkListener 8 (js "change") OnFileChange (locate sim_page);
        mkListener 11 (js "click") OnClassifyData (locate sim_page)]
       []).
Proof.
  apply (main_wires_page (js "key") sim_page 0 1 6 8 11);
    [discriminate|reflexivity..].
Defined.

(** Without the file input the two tab buttons and the compliance button
    are wired; the classifier's button is not. *)
Lemma main_stops_at_missing_target_witness :
  exists ls,
    main (Some (js "key")) (loaded sim_page_no_upload)
    = (Throw TypeError_null, mkWorld sim_page_no_upload None ls []) /\
    describe <$> ls = take 3 (wiring (locate sim_page_no_upload)) /\
    length ls = 3%nat /\
    (3 < 5)%nat.
Proof.
  apply (main_stops_at_missing_target (js "key") sim_page_no_upload 3
           (js "change") OnFileChange).
  - discriminate.
  - vm_compute. reflexivity.
  - intros [|[|[|j]]] x Hj Hx; [| | |lia];
      vm_compute in Hx; injection Hx as <-; simpl; eauto.
Defined.

Lemma main_handles_distinct_witness :
  9%nat <> 10%nat /\
  exists e, sim_page !! 9%nat = Some e /\ handle_ids !! 9%nat = Some (elemId e).
Proof.
  apply (main_handles_distinct (js "key") sim_page sim_handles
           (main (Some (js "key")) (loaded sim_page)).2 9 10 9 10).
  - vm_compute. reflexivity.
  - discriminate.
  - reflexivity.
  - reflexivity.
Defined.

Lemma dispatch_runs_registered_listener_witness :
  let w1 := (main (Some (js "key")) (loaded sim_page)).2 in
  (forall i n ty c,
     wiring sim_handles !! i = Some (Some n, ty, c) ->
     @dispatchEvent sim n ty (mkEvent None) w1
     = detached (@runListener sim (mkListener n ty c sim_handles) (mkEvent None))
         w1) /\
  (forall node type,
     (forall c, (Some node, type, c) ∉ wiring sim_handles) ->
     @dispatchEvent sim node type (mkEvent None) w1 = (Normal tt, w1)).
Proof.
  apply (@dispatch_runs_registered_listener sim (js "key") sim_page
           sim_handles (main (Some (js "key")) (loaded sim_page)).2).
  - vm_compute. reflexivity.
  - reflexivity.
Defined.

Lemma button_disabled_during_call_witness :
  exists w' mid,
    @streamResponse sim (js "Summarise") (Some 7%nat) (Some 6%nat)
      (loaded sim_page) = (Normal tt, w') /\
    trace w'
      = [DomWrite 6%nat (SetDisabled true);
         DomWrite 7%nat (SetInnerHTML loadingDiv);
         ModelRequest model (js "Summarise")] ++
        mid ++ [DomWrite 6%nat (SetDisabled false)] /\
    requests mid = [] /\
    disabledWrites mid = [] /\
    forall t1 t2, mid = t1 ++ t2 ->
      prop disabled (Some 6%nat)
        (exec ([DomWrite 6%nat (SetDisabled true);
                DomWrite 7%nat (SetInnerHTML loadingDiv);
                ModelRequest model (js "Summarise")] ++ t1)
           (loaded sim_page))
      = Some true.
Proof.
  apply (@button_disabled_during_call sim (js "Summarise") 7%nat 6%nat
           (loaded sim_page)); vm_compute; eauto.
Defined.

Lemma failure_is_logged_witness :
  exists w',
    @streamResponse sim [] (Some 7%nat) (Some 6%nat) (loaded sim_page)
      = (Normal tt, w') /\
    consoleErrors (trace w') = [mkError (js "network down")].
Proof.
  destruct (@failure_is_logged sim [] 7%nat 6%nat (loaded sim_page))
    as (w' & Hrun & Hlog & _).
  - vm_compute. eauto.
  - vm_compute. eauto.
  - exists w'. split; [exact Hrun|exact Hlog].
Defined.

Lemma missing_surface_leaves_button_disabled_witness :
  exists w',
    @onCheckCompliance sim sim_handles_no_surface (loaded sim_page)
      = (Normal tt, w') /\
    trace w' = [DomWrite 6%nat (SetDisabled true); Uncaught TypeError_null] /\
    prop disabled (Some 6%nat) w' = Some true /\
    requests (trace w') = [].
Proof.
  apply (@missing_surface_leaves_button_disabled sim sim_handles_no_surface
           Compliance (loaded sim_page) (js "{}") (js "SELECT 1") 6%nat).
  - reflexivity.
  - reflexivity.
  - apply falsy_trim_false. reflexivity.
  - apply falsy_trim_false. reflexivity.
  - reflexivity.
  - reflexivity.
  - vm_compute. eauto.
Defined.

Lemma click_starts_call_witness :
  exists w' rest,
    @onCheckCompliance sim sim_handles (loaded sim_page) = (Normal tt, w') /\
    trace w'
      = [DomWrite 6%nat (SetDisabled true);
         DomWrite 7%nat (SetInnerHTML loadingDiv);
         ModelRequest model (compliancePrompt (js "{}") (js "SELECT 1"))]
        ++ rest /\
    last rest = Some (DomWrite 6%nat (SetDisabled false)).
Proof.
  destruct (@click_starts_call sim sim_handles Compliance (loaded sim_page)
              (js "{}") (js "SELECT 1") 7%nat 6%nat)
    as (w' & rest & Hrun & Htrace & _ & Hlast).
  - reflexivity.
  - reflexivity.
  - apply falsy_trim_false. reflexivity.
  - apply falsy_trim_false. reflexivity.
  - reflexivity.
  - reflexivity.
  - vm_compute. eauto.
  - vm_compute. eauto.
  - exists w', rest. split; [exact Hrun|]. split; [exact Htrace|exact Hlast].
Defined.

Lemma last_switch_wins_witness :
  exists w1 w2 w2',
    switchTab (Some 1%nat) (Some 3%nat) (loaded sim_page) = (Normal tt, w1) /\
    switchTab (Some 0%nat) (Some 2%nat) w1 = (Normal tt, w2) /\
    switchTab (Some 0%nat) (Some 2%nat) (loaded sim_page) = (Normal tt, w2') /\
    document w2 = document w2'.
Proof.
  apply (last_switch_wins 1 3 0 2 (loaded sim_page));
    try (vm_compute; eauto; fail);
    (eexists; split; [reflexivity|]; vm_compute; apply list_elem_of_here).
Defined.

Lemma switchTab_idempotent_witness :
  exists w1 w2,
    switchTab (Some 1%nat) (Some 3%nat) (loaded sim_page) = (Normal tt, w1) /\
    switchTab (Some 1%nat) (Some 3%nat) w1 = (Normal tt, w2) /\
    document w2 = document w1.
Proof.
  apply (switchTab_idempotent 1 3 (loaded sim_page)); vm_compute; eauto.
Defined.

Lemma switchTab_missing_panel_witness :
  exists w',
    switchTab (Some 1%nat) None (loaded sim_page) = (Throw TypeError_null, w') /\
    hasClass (js "active") 1%nat w' /\
    getAttribute (js "aria-selected") 1%nat w' = Some (js "true") /\
    forall n, n <> 1%nat ->
      hasClass (js "tab-button") n w' \/ hasClass (js "tab-content") n w' ->
      ~ hasClass (js "active") n w'.
Proof.
  apply (switchTab_missing_panel 1 (loaded sim_page)). vm_compute. eauto.
Defined.

Lemma upload_success_keeps_markup_witness :
  let w' :=
    (@onFileChange sim sim_handles (mkEvent (Some [sim_file]))
       (loaded sim_page)).2 in
  prop innerHTML (Some 12%nat) w'
  = prop innerHTML (Some 12%nat) (loaded sim_page) /\
  (schemaInputClassifier sim_handles <> Some 12%nat ->
   sampleInput sim_handles <> Some 12%nat ->
   prop value (Some 12%nat) w' = prop value (Some 12%nat) (loaded sim_page)).
Proof.
  eapply (@upload_success_keeps_markup sim sim_handles
            (mkEvent (Some [sim_file])) sim_file).
  - reflexivity.
  - vm_compute. reflexivity.
Defined.

(** The compliance call and the classifier call, one after the other. *)
Lemma disjoint_calls_do_not_interfere_witness :
  let w := loaded sim_page in
  let w1 := (@streamResponse sim (js "Summarise") (Some 7%nat) (Some 6%nat) w).2 in
  let w2 := (@streamResponse sim [] (Some 12%nat) (Some 11%nat) w).2 in
  let t := trace w1 ++ trace w2 in
  prop innerHTML (Some 7%nat) (exec t w) = prop innerHTML (Some 7%nat) w1 /\
  prop disabled (Some 6%nat) (exec t w) = prop disabled (Some 6%nat) w1 /\
  prop innerHTML (Some 12%nat) (exec t w) = prop innerHTML (Some 12%nat) w2 /\
  prop disabled (Some 11%nat) (exec t w) = prop disabled (Some 11%nat) w2.
Proof.
  apply (@disjoint_calls_do_not_interfere sim (js "Summarise") []
           7%nat 6%nat 12%nat 11%nat (loaded sim_page)
           (trace (@streamResponse sim (js "Summarise") (Some 7%nat)
                     (Some 6%nat) (loaded sim_page)).2)
           (trace (@streamResponse sim [] (Some 12%nat) (Some 11%nat)
                     (loaded sim_page)).2)).
  - discriminate.
  - discriminate.
  - discriminate.
  - discriminate.
  - reflexivity.
  - reflexivity.
  - apply interleaving_app.
Defined.

Lemma streamResponse_reads_nothing_witness :
  exists t,
    trace (@streamResponse sim (js "Summarise") (Some 7%nat) (Some 6%nat)
             (loaded sim_page)).2 = t /\
    trace (@streamResponse sim (js "Summarise") (Some 7%nat) (Some 6%nat)
             (loaded sim_page_filled)).2 = t /\
    (@streamResponse sim (js "Summarise") (Some 7%nat) (Some 6%nat)
       (loaded sim_page)).1
    = (@streamResponse sim (js "Summarise") (Some 7%nat) (Some 6%nat)
         (loaded sim_page_filled)).1.
Proof.
  apply (@streamResponse_reads_nothing sim (js "Summarise") 7%nat 6%nat
           (loaded sim_page) (loaded sim_page_filled)); vm_compute; eauto.
Defined.
